(** * spotify_custom: the config-entry setup of the Spotify integration

    A shallow embedding of [custom_components/spotify_custom/__init__.py].

    The module is orchestration code: every interesting step is a call into
    the host platform (Home Assistant) or into the API client (spotifyaio).
    The embedding therefore threads one explicit [World] (the state of
    [hass], of the config entry and of the objects the module creates)
    through a state-and-exception monad, and takes the answers of the
    outside world (the token endpoint, the Spotify Web API) from an
    environment [Env] indexed by call number.

    Calls that the source guards with [try]/[except], or that the platform
    documents as raising, are fallible in the model: the session's
    [async_ensure_token_valid], the client's [get_devices], the primary
    coordinator's update and a coordinator's first refresh.  Plain platform
    bookkeeping (object construction, service registration, forwarding the
    entry to the platforms) is modelled as a state update.  An attribute
    the platform's objects do not have raises AttributeError when the
    code looks it up.

    A Python exception does not roll the state back: a raised exception
    leaves the [World] as it was at the [raise]. *)

From Stdlib Require Import ZArith Lia Ascii String.
From stdpp Require Import base option list gmap strings.

(** ** Exceptions *)

(** The exception classes the module names, one subclass of
    [aiohttp.ClientError] that the token endpoint raises on a rejected
    refresh, and a catch-all for every other class. *)
Inductive ExnClass : Type :=
| ClientError
| ClientResponseError
| SpotifyConnectionError
| UpdateFailed
| ConfigEntryNotReady
| ConfigEntryAuthFailed
| OtherException (name : string).

(** An exception instance: its class and the [__cause__] set by
    [raise ... from err]. *)
Inductive Exn : Type :=
| Raise (cls : ExnClass)
| RaiseFrom (cls : ExnClass) (cause : Exn).

Definition exn_class (e : Exn) : ExnClass :=
  match e with
  | Raise c => c
  | RaiseFrom c _ => c
  end.

Definition exn_cause (e : Exn) : option Exn :=
  match e with
  | Raise _ => None
  | RaiseFrom _ cause => Some cause
  end.

(** [issubclass c base], as an [except base] clause tests it. *)
Definition issubclass (c base : ExnClass) : bool :=
  match base, c with
  | ClientError, (ClientError | ClientResponseError) => true
  | ClientResponseError, ClientResponseError => true
  | SpotifyConnectionError, SpotifyConnectionError => true
  | UpdateFailed, UpdateFailed => true
  | ConfigEntryNotReady, ConfigEntryNotReady => true
  | ConfigEntryAuthFailed, ConfigEntryAuthFailed => true
  | OtherException b, OtherException n => String.eqb n b
  | _, _ => false
  end.

Definition isinstance (e : Exn) (base : ExnClass) : bool :=
  issubclass (exn_class e) base.

(** The outcome of a call: a value or a raised exception. *)
Inductive result (A : Type) : Type :=
| Returned (a : A)
| Raised (e : Exn).
Arguments Returned {A} a.
Arguments Raised {A} e.

(** ** Data *)

(** [datetime.timedelta], normalised as Python does: days, seconds in
    [0, 86400) and microseconds in [0, 10^6).  Python refuses a timedelta
    of more than 999999999 days either way (OverflowError); the model
    stands for Python's value within that range, where the module's one
    interval, five minutes, lies. *)
Record timedelta : Type := mk_timedelta {
  td_days : Z;
  td_seconds : Z;
  td_microseconds : Z
}.

Definition timedelta_of_microseconds (us : Z) : timedelta :=
  let s := (us / 1000000)%Z in
  {| td_days := (s / 86400)%Z;
     td_seconds := (s mod 86400)%Z;
     td_microseconds := (us mod 1000000)%Z |}.

(** [timedelta(minutes=m)] *)
Definition timedelta_minutes (m : Z) : timedelta :=
  timedelta_of_microseconds (m * 60 * 1000000)%Z.

(** [timedelta.total_seconds()], for a whole number of seconds. *)
Definition total_seconds (td : timedelta) : Z :=
  (td_days td * 86400 + td_seconds td)%Z.

(** The OAuth2 token record of the config entry, [session.token]: the
    entries the module reads.  The record has both; a token without one of
    them (a KeyError at the subscript) is not a value of this type. *)
Record Token : Type := mk_token {
  access_token : string;
  scope : string
}.

(** A device descriptor of the API client. *)
Record Device : Type := mk_device {
  device_id : string;
  device_name : string;
  is_active : bool
}.

(** The snapshot the primary coordinator holds. *)
Record Playback : Type := mk_playback {
  playback_item : string;
  is_playing : bool
}.

Inductive Platform : Type := MEDIA_PLAYER | SENSOR.

Definition PLATFORMS : list Platform := [MEDIA_PLAYER; SENSOR].

(** [str.split(sep)] for a one-character separator: every occurrence
    splits, so adjacent separators give empty strings and the empty
    string gives one empty field. *)
Fixpoint split (sep : ascii) (s : string) : list string :=
  match s with
  | EmptyString => [EmptyString]
  | String c rest =>
      if Ascii.eqb c sep then EmptyString :: split sep rest
      else match split sep rest with
           | [] => [String c EmptyString]
           | field :: fields => String c field :: fields
           end
  end.

(** [set(token["scope"].split(" "))] *)
Definition granted_scopes (t : Token) : gset string :=
  list_to_set (split " " (scope t)).

(** [granted.issuperset(required)] for a list [required]. *)
Definition issuperset (granted : gset string) (required : list string) : bool :=
  forallb (fun s => bool_decide (s ∈ granted)) required.

(** ** The world *)

(** Objects live in a heap and are shared by address: the closures of the
    service handlers, the runtime data of the entry and the platform's
    timer all hold the same coordinator. *)
Definition addr : Type := nat.

(** The update methods a coordinator of this module is built with: the
    primary coordinator's own [_async_update_data], and the closure
    [_update_devices] of [async_setup_entry]. *)
Inductive UpdateMethod : Type :=
| SpotifyCoordinatorUpdate
| UpdateDevices.

Inductive CoordinatorData : Type :=
| PlaybackData (p : Playback)
| DeviceList (l : list Device).

(** Modelled from the spec: the host platform's generic polling coordinator
    ([DataUpdateCoordinator]) is not part of this repository's sources; its
    state is the one of spec section 4.3: the cached snapshot ([None] while
    UNINITIALIZED), whether the last poll succeeded, and the last failure.
    [update_interval] is [None] when the module passes no interval. *)
Record Coordinator : Type := mk_coordinator {
  name : string;
  config_entry : option string;
  update_interval : option timedelta;
  update_method : UpdateMethod;
  data : option CoordinatorData;
  last_update_success : bool;
  last_exception : option Exn
}.

(** The refresh callback a client can be given: the closure
    [_refresh_token] of [async_setup_entry]. *)
Inductive RefreshFunction : Type := RefreshToken.

(** The API client object: the bearer token it holds and its refresh
    callback. *)
Record SpotifyClient : Type := mk_client {
  client_token : option string;
  refresh_token_function : option RefreshFunction
}.

(** The OAuth2 session object of a config entry. *)
Inductive OAuth2Session : Type := Session (entry_id : string).

(** Modelled from the spec: [models.SpotifyData] is not under src/; it is
    the runtime context of spec section 3, a bundle holding references to
    the primary coordinator, the session and the device coordinator, in
    the order the module passes them. *)
Record SpotifyData : Type := mk_spotify_data {
  coordinator : addr;
  session : OAuth2Session;
  devices : addr
}.

(** The closures the module registers as service handlers. *)
Inductive Handler : Type :=
| HandleUpdateDevices (device_coordinator : addr)
| HandleSearch.

(** A service call as the platform hands it to a handler: the service it
    names and its data.  The platform's [ServiceCall] carries a context
    and a response flag besides; it has no attribute [id]. *)
Record ServiceCall : Type := mk_call {
  call_domain : string;
  call_service : string;
  call_data : gmap string string
}.

(** A record of the coordinator's logger: the coordinator and the error. *)
Record LogRecord : Type := mk_log {
  log_name : string;
  log_error : Exn
}.

(** The state the module reads and writes: the config entry (id, title,
    token, runtime data), the client, the heap of coordinators, the
    service registry of [hass], the platforms the entry was forwarded to,
    the log, the response data the platform has been handed for service
    calls (the handlers of this module hand none back), and the number of
    calls made so far to each outside party. *)
Record World : Type := mk_world {
  entry_id_of : string;
  entry_title : string;
  entry_token : Token;
  runtime_data : option SpotifyData;
  spotify : SpotifyClient;
  heap : list Coordinator;
  services : gmap (string * string) Handler;
  forwarded : list Platform;
  log : list LogRecord;
  service_results : gmap nat (gmap string (list string));
  token_calls : nat;
  playback_calls : nat;
  device_calls : nat
}.

(** What one call of the session's [async_ensure_token_valid] does: the
    token is still valid, it is refreshed in place, or the refresh fails. *)
Inductive TokenOutcome : Type :=
| StillValid
| Refreshed (t : Token)
| RefreshFails (e : Exn).

(** The outside world: the outcome of the n-th token check, of the n-th
    update of the primary coordinator and of the n-th device-list request. *)
Record Env : Type := mk_env {
  token_outcome : nat -> TokenOutcome;
  playback_outcome : nat -> result Playback;
  devices_outcome : nat -> result (list Device)
}.

(** ** The state-and-exception monad *)

Definition M (A : Type) : Type := World -> World * result A.

Definition ret {A} (a : A) : M A := fun w => (w, Returned a).

Definition raise {A} (e : Exn) : M A := fun w => (w, Raised e).

Definition bind {A B} (m : M A) (k : A -> M B) : M B :=
  fun w =>
    match m w with
    | (w', Returned a) => k a w'
    | (w', Raised e) => (w', Raised e)
    end.

(** [try: m except Exception as err: h err] *)
Definition try_except {A} (m : M A) (h : Exn -> M A) : M A :=
  fun w =>
    match m w with
    | (w', Returned a) => (w', Returned a)
    | (w', Raised e) => h e w'
    end.

Definition get : M World := fun w => (w, Returned w).

Definition modify (f : World -> World) : M unit := fun w => (f w, Returned tt).

Declare Scope monad_scope.
Delimit Scope monad_scope with monad.
Notation "'let*' x := m 'in' k" := (bind m (fun x => k))
  (at level 10, x name, m at level 100, k at level 200) : monad_scope.
Notation "m >> k" := (bind m (fun _ => k))
  (at level 60, right associativity) : monad_scope.
Local Open Scope monad_scope.

(** *** Field updates *)

Definition set_entry_token (t : Token) (w : World) : World :=
  mk_world (entry_id_of w) (entry_title w) t (runtime_data w) (spotify w)
    (heap w) (services w) (forwarded w) (log w) (service_results w)
    (token_calls w) (playback_calls w) (device_calls w).

Definition set_runtime_data (d : option SpotifyData) (w : World) : World :=
  mk_world (entry_id_of w) (entry_title w) (entry_token w) d (spotify w)
    (heap w) (services w) (forwarded w) (log w) (service_results w)
    (token_calls w) (playback_calls w) (device_calls w).

Definition set_spotify (c : SpotifyClient) (w : World) : World :=
  mk_world (entry_id_of w) (entry_title w) (entry_token w) (runtime_data w) c
    (heap w) (services w) (forwarded w) (log w) (service_results w)
    (token_calls w) (playback_calls w) (device_calls w).

Definition set_heap (h : list Coordinator) (w : World) : World :=
  mk_world (entry_id_of w) (entry_title w) (entry_token w) (runtime_data w)
    (spotify w) h (services w) (forwarded w) (log w) (service_results w)
    (token_calls w) (playback_calls w) (device_calls w).

Definition set_services (s : gmap (string * string) Handler) (w : World) : World :=
  mk_world (entry_id_of w) (entry_title w) (entry_token w) (runtime_data w)
    (spotify w) (heap w) s (forwarded w) (log w) (service_results w)
    (token_calls w) (playback_calls w) (device_calls w).

Definition set_forwarded (p : list Platform) (w : World) : World :=
  mk_world (entry_id_of w) (entry_title w) (entry_token w) (runtime_data w)
    (spotify w) (heap w) (services w) p (log w) (service_results w)
    (token_calls w) (playback_calls w) (device_calls w).

Definition set_log (l : list LogRecord) (w : World) : World :=
  mk_world (entry_id_of w) (entry_title w) (entry_token w) (runtime_data w)
    (spotify w) (heap w) (services w) (forwarded w) l (service_results w)
    (token_calls w) (playback_calls w) (device_calls w).

Definition set_token_calls (n : nat) (w : World) : World :=
  mk_world (entry_id_of w) (entry_title w) (entry_token w) (runtime_data w)
    (spotify w) (heap w) (services w) (forwarded w) (log w) (service_results w)
    n (playback_calls w) (device_calls w).

Definition set_playback_calls (n : nat) (w : World) : World :=
  mk_world (entry_id_of w) (entry_title w) (entry_token w) (runtime_data w)
    (spotify w) (heap w) (services w) (forwarded w) (log w) (service_results w)
    (token_calls w) n (device_calls w).

Definition set_device_calls (n : nat) (w : World) : World :=
  mk_world (entry_id_of w) (entry_title w) (entry_token w) (runtime_data w)
    (spotify w) (heap w) (services w) (forwarded w) (log w) (service_results w)
    (token_calls w) (playback_calls w) n.

(** ** The session and the client *)

Section Integration.

(** [const.py] is not under src/: the namespace and the required scopes
    are parameters of the development. *)
Variable DOMAIN : string.
Variable SPOTIFY_SCOPES : list string.

(** Modelled from the spec: the service names of [const.py], as spec
    section 6 gives them. *)
Definition SERVICE_UPDATE_DEVICES : string := "update_devices".
Definition SERVICE_SEARCH : string := "search".

Variable env : Env.

(** [await session.async_ensure_token_valid()]: the next answer of the
    token endpoint; a refresh replaces the entry's token in place. *)
Definition async_ensure_token_valid : M unit :=
  fun w =>
    let w' := set_token_calls (S (token_calls w)) w in
    match token_outcome env (token_calls w) with
    | StillValid => (w', Returned tt)
    | Refreshed t => (set_entry_token t w', Returned tt)
    | RefreshFails e => (w', Raised e)
    end.

(** [session.token[CONF_ACCESS_TOKEN]] *)
Definition session_access_token : M string :=
  let* w := get in ret (access_token (entry_token w)).

(** The closure [_refresh_token] (lines 57-62). *)
Definition _refresh_token : M string :=
  async_ensure_token_valid >>
  let* token := session_access_token in
  ret token.

Definition call_refresh_function (f : RefreshFunction) : M string :=
  match f with
  | RefreshToken => _refresh_token
  end.

(** [spotify.authenticate(token)] *)
Definition authenticate (token : string) : M unit :=
  modify (fun w =>
    set_spotify (mk_client (Some token) (refresh_token_function (spotify w))) w).

(** Modelled from the spec: the API client is an external collaborator;
    by spec sections 4.1 and 4.2 it calls the refresh callback it was
    given on demand, before a request needs a header, and then performs
    the request, whose outcome is the environment's. *)
Definition client_refresh_token : M unit :=
  let* w := get in
  match refresh_token_function (spotify w) with
  | Some f => let* token := call_refresh_function f in authenticate token
  | None => ret tt
  end.

Definition get_devices : M (list Device) :=
  client_refresh_token >>
  fun w =>
    (set_device_calls (S (device_calls w)) w,
     devices_outcome env (device_calls w)).

(** The closure [_update_devices] (lines 70-74). *)
Definition _update_devices : M (list Device) :=
  try_except get_devices
    (fun err =>
       if isinstance err SpotifyConnectionError
       then raise (RaiseFrom UpdateFailed err)
       else raise err).

(** Modelled from the spec: [coordinator.SpotifyCoordinator] is not under
    src/; its update is the "current state" call of spec section 4.2, whose
    outcome is the environment's.  Which requests the update makes is not
    known here: the token checks they ask the session for are part of that
    outcome and are not counted, and the session's token is taken not to
    change during the update. *)
Definition spotify_coordinator_update : M Playback :=
  fun w =>
    (set_playback_calls (S (playback_calls w)) w,
     playback_outcome env (playback_calls w)).

Definition run_update_method (m : UpdateMethod) : M CoordinatorData :=
  match m with
  | SpotifyCoordinatorUpdate =>
      let* p := spotify_coordinator_update in ret (PlaybackData p)
  | UpdateDevices =>
      let* l := _update_devices in ret (DeviceList l)
  end.

(** ** The polling coordinator *)

(** Constructing an object puts it at the next free address. *)
Definition alloc (c : Coordinator) : M addr :=
  fun w => (set_heap (heap w ++ [c]) w, Returned (length (heap w))).

(** Following a reference.  Python has no dangling references; the model
    raises on an address nothing was allocated at, and [setup_heap_bound]
    below shows that the handler [async_setup_entry] registers holds the
    address of the coordinator it created. *)
Definition deref (a : addr) : M Coordinator :=
  fun w =>
    match heap w !! a with
    | Some c => (w, Returned c)
    | None => (w, Raised (Raise (OtherException "NameError")))
    end.

Definition store (a : addr) (c : Coordinator) : M unit :=
  modify (fun w => set_heap (<[a := c]> (heap w)) w).

Definition poll_succeeded (d : CoordinatorData) (c : Coordinator) : Coordinator :=
  mk_coordinator (name c) (config_entry c) (update_interval c)
    (update_method c) (Some d) true None.

Definition poll_failed (e : Exn) (c : Coordinator) : Coordinator :=
  mk_coordinator (name c) (config_entry c) (update_interval c)
    (update_method c) (data c) false (Some e).

(** Modelled from the spec: one poll of a coordinator (spec section 4.3).
    A successful poll replaces the snapshot wholesale; a failed poll keeps
    the last-good snapshot and records the failure.  The answer tells
    whether the poll succeeded. *)
Definition coordinator_poll (a : addr) : M bool :=
  let* c := deref a in
  try_except
    (let* d := run_update_method (update_method c) in
     store a (poll_succeeded d c) >> ret true)
    (fun e => store a (poll_failed e c) >> ret false).

Definition log_failure (a : addr) : M unit :=
  let* c := deref a in
  match last_exception c with
  | Some e => modify (fun w => set_log (log w ++ [mk_log (name c) e]) w)
  | None => ret tt
  end.

(** Modelled from the spec: a later poll, scheduled or manual
    ([async_refresh]).  A failure is reported through the coordinator's
    log and is not raised to the caller. *)
Definition async_refresh (a : addr) : M unit :=
  let* ok := coordinator_poll a in
  if ok : bool then ret tt else log_failure a.

(** Modelled from the spec: the first poll, synchronous in setup
    ([async_config_entry_first_refresh]).  A failure is raised as
    [ConfigEntryNotReady], caused by the failure of the poll. *)
Definition async_config_entry_first_refresh (a : addr) : M unit :=
  let* ok := coordinator_poll a in
  if ok : bool then ret tt
  else
    let* c := deref a in
    match last_exception c with
    | Some e => raise (RaiseFrom ConfigEntryNotReady e)
    | None => raise (Raise ConfigEntryNotReady)
    end.

(** What a reader of the coordinator at [a] is served. *)
Definition read_data (a : addr) (w : World) : option CoordinatorData :=
  c ← heap w !! a; data c.

(** What a reader of the entry's runtime data is served as device list. *)
Definition read_devices (w : World) : option CoordinatorData :=
  rd ← runtime_data w; read_data (devices rd) w.

(** ** Services *)

(** [hass.services.async_register(domain, service, handler)] *)
Definition async_register (domain service : string) (h : Handler) : M unit :=
  modify (fun w => set_services (<[(domain, service) := h]> (services w)) w).

(** Looking up an attribute that its object does not have raises
    AttributeError. *)
Definition AttributeError : ExnClass := OtherException "AttributeError".

(** [hass.services.async_set_results]: [hass.services] is the platform's
    service registry, whose methods are [async_register], [async_remove],
    [async_call], [has_service] and the like; it has no attribute
    [async_set_results].  The lookup raises, so there is no method value
    to go on with: the type of its arguments is empty. *)
Definition services_async_set_results
    : M (Empty_set -> gmap string (list string) -> M unit) :=
  raise (Raise AttributeError).

(** [call.id]: a [ServiceCall] has no attribute [id]. *)
Definition call_id (call : ServiceCall) : M Empty_set :=
  raise (Raise AttributeError).

(** The closure [_handle_update_devices_service] (lines 87-88). *)
Definition _handle_update_devices_service (device_coordinator : addr)
    (call : ServiceCall) : M unit :=
  async_refresh device_coordinator.

(** The closure [_handle_search] (lines 93-96).  Python evaluates the
    callee [hass.services.async_set_results] first, then the arguments
    [call.id] and the payload, then calls; the handler has no [return]. *)
Definition _handle_search (call : ServiceCall) : M unit :=
  let results := ["sonuc1"; "sonuc2"; "sonuc3"] in
  let* async_set_results := services_async_set_results in
  let* id := call_id call in
  async_set_results id {["results" := results]}.

Definition run_handler (h : Handler) (call : ServiceCall) : M unit :=
  match h with
  | HandleUpdateDevices device_coordinator =>
      _handle_update_devices_service device_coordinator call
  | HandleSearch => _handle_search call
  end.

(** The platform calling a registered service. *)
Definition async_call (domain service : string) (call : ServiceCall) : M unit :=
  let* w := get in
  match services w !! (domain, service) with
  | Some h => run_handler h call
  | None => raise (Raise (OtherException "ServiceNotFound"))
  end.

(** ** Setup *)

(** [SpotifyCoordinator(hass, spotify)] (line 66): the module passes the
    client and no interval.  The class body is not under src/; the model
    names the object Spotify. *)
Definition new_spotify_coordinator : M addr :=
  let* w := get in
  alloc (mk_coordinator "Spotify" (Some (entry_id_of w)) None
           SpotifyCoordinatorUpdate None true None).

(** [DataUpdateCoordinator(hass, LOGGER, name=..., config_entry=entry,
    update_interval=timedelta(minutes=5), update_method=_update_devices)]
    (lines 76-83). *)
Definition new_device_coordinator : M addr :=
  let* w := get in
  alloc (mk_coordinator (entry_title w +:+ " Devices") (Some (entry_id_of w))
           (Some (timedelta_minutes 5)) UpdateDevices None true None).

(** The token check of setup (lines 48-51). *)
Definition setup_token_check : M unit :=
  try_except async_ensure_token_valid
    (fun err =>
       if isinstance err ClientError
       then raise (RaiseFrom ConfigEntryNotReady err)
       else raise err).

(** [async_setup_entry] (lines 43-128).  Looking up the OAuth2
    implementation and constructing the session (lines 45-46) is platform
    bookkeeping: the session is the one of the entry. *)
Definition async_setup_entry : M bool :=
  let* w := get in
  let session := Session (entry_id_of w) in
  setup_token_check >>
  modify (set_spotify (mk_client None None)) >>
  (let* token := session_access_token in authenticate token) >>
  modify (fun w => set_spotify
            (mk_client (client_token (spotify w)) (Some RefreshToken)) w) >>
  let* coordinator := new_spotify_coordinator in
  async_config_entry_first_refresh coordinator >>
  let* device_coordinator := new_device_coordinator in
  async_config_entry_first_refresh device_coordinator >>
  async_register DOMAIN SERVICE_UPDATE_DEVICES
    (HandleUpdateDevices device_coordinator) >>
  async_register DOMAIN SERVICE_SEARCH HandleSearch >>
  modify (set_runtime_data
            (Some (mk_spotify_data coordinator session device_coordinator))) >>
  let* w := get in
  if negb (issuperset (granted_scopes (entry_token w)) SPOTIFY_SCOPES)
  then raise (Raise ConfigEntryAuthFailed)
  else
    modify (fun w => set_forwarded (forwarded w ++ PLATFORMS) w) >>
    ret true.

End Integration.

(** ** Unload *)

#[global] Instance Platform_eq_dec : EqDecision Platform.
Proof. solve_decision. Defined.

(** [hass.config_entries.async_unload_platforms(entry, platforms)]:
    platform bookkeeping.  The platform's answer [ok] tells whether the
    platforms unloaded; if they did, the entry is no longer forwarded to
    them. *)
Definition async_unload_platforms (ok : bool) (platforms : list Platform)
    : M bool :=
  fun w =>
    (if ok
     then set_forwarded (filter (fun p => p ∉ platforms) (forwarded w)) w
     else w,
     Returned ok).

(** [async_unload_entry] (lines 131-133). *)
Definition async_unload_entry (ok : bool) : M bool :=
  async_unload_platforms ok PLATFORMS.

(** ** Vocabulary of the statements *)

(** [sep.join(fields)] *)
Fixpoint join (sep : string) (fields : list string) : string :=
  match fields with
  | [] => ""
  | field :: rest =>
      match rest with
      | [] => field
      | _ :: _ => field +:+ sep +:+ join sep rest
      end
  end.

(** Whether the character [c] occurs in [s]. *)
Fixpoint contains (c : ascii) (s : string) : bool :=
  match s with
  | EmptyString => false
  | String c' rest => Ascii.eqb c c' || contains c rest
  end.

(** The exception a token check raises, if it raises. *)
Definition refresh_fails (o : TokenOutcome) : option Exn :=
  match o with
  | RefreshFails e => Some e
  | StillValid | Refreshed _ => None
  end.

(** The token the session holds after a token check that did not raise. *)
Definition token_after (o : TokenOutcome) (t : Token) : Token :=
  match o with
  | Refreshed t' => t'
  | StillValid | RefreshFails _ => t
  end.

(** The class of the exception a call raised, if it raised. *)
Definition raised_class {A} (r : result A) : option ExnClass :=
  match r with
  | Returned _ => None
  | Raised e => Some (exn_class e)
  end.

(** The last failure the coordinator at [a] recorded. *)
Definition read_last_exception (a : addr) (w : World) : option Exn :=
  c ← heap w !! a; last_exception c.

(** The transport exceptions the module names: the client's connection
    error and the HTTP library's client error. *)
Definition raw_transport_exception (e : Exn) : bool :=
  isinstance e SpotifyConnectionError || isinstance e ClientError.

(** A setup run started in [w0] gets as far as the scope validation: the
    token check passes, the first poll of the primary coordinator returns
    [p], and the first device poll (token check, then request) returns
    [l]. *)
Definition reaches_scope_check (env : Env) (w0 : World) (p : Playback)
    (l : list Device) : Prop :=
  refresh_fails (token_outcome env (token_calls w0)) = None /\
  playback_outcome env (playback_calls w0) = Returned p /\
  refresh_fails (token_outcome env (S (token_calls w0))) = None /\
  devices_outcome env (device_calls w0) = Returned l.

(** The first device poll of a setup run started in [w0] fails with [e]:
    at the token refresh the client asks for, or at the request. *)
Definition first_device_poll_fails (env : Env) (w0 : World) (e : Exn) : Prop :=
  refresh_fails (token_outcome env (S (token_calls w0))) = Some e \/
  (refresh_fails (token_outcome env (S (token_calls w0))) = None /\
   devices_outcome env (device_calls w0) = Raised e).

(** The world a setup run that gets as far as the scope validation has
    built by then. *)
Definition world_at_scope_check (DOMAIN : string) (env : Env) (w0 : World)
    (p : Playback) (l : list Device) : World :=
  let t1 := token_after (token_outcome env (token_calls w0)) (entry_token w0) in
  let t2 := token_after (token_outcome env (S (token_calls w0))) t1 in
  let a := length (heap w0) in
  {| entry_id_of := entry_id_of w0;
     entry_title := entry_title w0;
     entry_token := t2;
     runtime_data := Some (mk_spotify_data a (Session (entry_id_of w0)) (S a));
     spotify := mk_client (Some (access_token t2)) (Some RefreshToken);
     heap := heap w0 ++
       [mk_coordinator "Spotify" (Some (entry_id_of w0)) None
          SpotifyCoordinatorUpdate (Some (PlaybackData p)) true None;
        mk_coordinator (entry_title w0 +:+ " Devices") (Some (entry_id_of w0))
          (Some (timedelta_minutes 5)) UpdateDevices (Some (DeviceList l))
          true None];
     services :=
       <[(DOMAIN, SERVICE_SEARCH) := HandleSearch]>
         (<[(DOMAIN, SERVICE_UPDATE_DEVICES) := HandleUpdateDevices (S a)]>
            (services w0));
     forwarded := forwarded w0;
     log := log w0;
     service_results := service_results w0;
     token_calls := S (S (token_calls w0));
     playback_calls := S (playback_calls w0);
     device_calls := S (device_calls w0) |}.

(** The exception [_update_devices] turns a failure of the client into. *)
Definition translated (e : Exn) : Exn :=
  if isinstance e SpotifyConnectionError then RaiseFrom UpdateFailed e else e.

(** An update method talks to the outside world and to the session; it
    leaves the heap, the registry, the runtime data, the log, the platforms
    and the results of service calls as they are. *)
Definition same_registry (w w' : World) : Prop :=
  heap w' = heap w /\ runtime_data w' = runtime_data w /\
  services w' = services w /\ log w' = log w /\
  forwarded w' = forwarded w /\ service_results w' = service_results w.

(** [n] later polls of the coordinator at [a], one after the other, as
    the platform's timer or the update_devices service start them. *)
Fixpoint poll_times (env : Env) (n : nat) (a : addr) (w : World) : World :=
  match n with
  | 0 => w
  | S k => poll_times env k a (fst (async_refresh env a w))
  end.

(** Every registered handler holds the address of a live coordinator. *)
Definition handlers_live (w : World) : Prop :=
  forall key a, services w !! key = Some (HandleUpdateDevices a) ->
    a < length (heap w).

(** ** Sample runs *)

Module Sample.

Definition required : list string :=
  ["user-modify-playback-state"; "user-read-playback-state"; "streaming"].

Definition full_token : Token :=
  mk_token "BQDtoken"
    "user-modify-playback-state user-read-playback-state streaming".

Definition narrow_token : Token :=
  mk_token "BQDtoken" "user-read-playback-state streaming".

Definition kitchen : Device := mk_device "d1" "Kitchen" true.
Definition office : Device := mk_device "d2" "Office" false.
Definition song : Playback := mk_playback "spotify:track:1" true.

(** [hass] and the entry before setup. *)
Definition fresh (t : Token) : World :=
  {| entry_id_of := "entry1"; entry_title := "Home"; entry_token := t;
     runtime_data := None; spotify := mk_client None None; heap := [];
     services := ∅; forwarded := []; log := []; service_results := ∅;
     token_calls := 0; playback_calls := 0; device_calls := 0 |}.

(** Everything answers. *)
Definition env_ok : Env :=
  mk_env (fun _ => StillValid) (fun _ => Returned song)
    (fun _ => Returned [kitchen; office]).

(** The token endpoint rejects every refresh. *)
Definition env_revoked : Env :=
  mk_env (fun _ => RefreshFails (Raise ClientResponseError))
    (fun _ => Returned song) (fun _ => Returned [kitchen; office]).

(** The first device-list request fails at the connection. *)
Definition env_first_poll_down : Env :=
  mk_env (fun _ => StillValid) (fun _ => Returned song)
    (fun _ => Raised (Raise SpotifyConnectionError)).

(** The first device-list request answers; every later one fails at the
    connection. *)
Definition env_later_poll_down : Env :=
  mk_env (fun _ => StillValid) (fun _ => Returned song)
    (fun n => match n with
              | 0 => Returned [kitchen; office]
              | S _ => Raised (Raise SpotifyConnectionError)
              end).

(** Setup passes; the token endpoint is then out of reach when the next
    device poll asks for a refresh. *)
Definition env_refresh_down_later : Env :=
  mk_env (fun n => match n with
                   | 0 | 1 => StillValid
                   | _ => RefreshFails (Raise ClientError)
                   end)
    (fun _ => Returned song) (fun _ => Returned [kitchen; office]).

(** The first poll of the primary coordinator fails at the connection. *)
Definition env_playback_down : Env :=
  mk_env (fun _ => StillValid)
    (fun _ => Raised (Raise SpotifyConnectionError))
    (fun _ => Returned [kitchen; office]).

(** After the first device-list request one device is gone. *)
Definition env_new_device : Env :=
  mk_env (fun _ => StillValid) (fun _ => Returned song)
    (fun n => match n with
              | 0 => Returned [kitchen; office]
              | S _ => Returned [office]
              end).

Definition a_call : ServiceCall :=
  mk_call "spotify" "search"
    {["query" := "anything"; "search_type" := "track"]}.

Definition domain : string := "spotify".

(** The world a setup run with all scopes granted leaves. *)
Definition ready (env : Env) : World :=
  fst (async_setup_entry domain required env (fresh full_token)).

End Sample.

(** * Properties *)

(** ** Lists and the equations of the monad *)

Lemma insert_at_end {A} (l : list A) (x y : A) :
  <[length l := y]> (l ++ [x]) = l ++ [y].
Proof.
  rewrite insert_app_r_alt by lia. rewrite Nat.sub_diag. reflexivity.
Qed.

Lemma lookup_at_end {A} (l : list A) (x : A) :
  (l ++ [x]) !! length l = Some x.
Proof. apply list_lookup_middle. reflexivity. Qed.

Lemma bind_returned {A B} (m : M A) (k : A -> M B) w w' a :
  m w = (w', Returned a) -> bind m k w = k a w'.
Proof. unfold bind. intros ->. reflexivity. Qed.

Lemma bind_raised {A B} (m : M A) (k : A -> M B) w w' e :
  m w = (w', Raised e) -> bind m k w = (w', Raised e).
Proof. unfold bind. intros ->. reflexivity. Qed.

Lemma try_except_returned {A} (m : M A) (h : Exn -> M A) w w' a :
  m w = (w', Returned a) -> try_except m h w = (w', Returned a).
Proof. unfold try_except. intros ->. reflexivity. Qed.

Lemma try_except_raised {A} (m : M A) (h : Exn -> M A) w w' e :
  m w = (w', Raised e) -> try_except m h w = h e w'.
Proof. unfold try_except. intros ->. reflexivity. Qed.

Lemma bind_get {B} (k : World -> M B) w : bind get k w = k w w.
Proof. reflexivity. Qed.

Lemma bind_modify {B} (f : World -> World) (k : unit -> M B) w :
  bind (modify f) k w = k tt (f w).
Proof. reflexivity. Qed.

Lemma bind_ret {A B} (a : A) (k : A -> M B) w : bind (ret a) k w = k a w.
Proof. reflexivity. Qed.

Lemma bind_assoc {A B C} (m : M A) (k : A -> M B) (h : B -> M C) w :
  bind (bind m k) h w = bind m (fun a => bind (k a) h) w.
Proof. unfold bind. destruct (m w) as [w' [a|e]]; reflexivity. Qed.

Ltac world :=
  cbn [set_entry_token set_runtime_data set_spotify set_heap set_services
       set_forwarded set_log set_token_calls
       set_playback_calls set_device_calls
       entry_id_of entry_title entry_token runtime_data spotify heap services
       forwarded log service_results token_calls playback_calls device_calls
       client_token refresh_token_function].

Section Properties.
Variable DOMAIN : string.
Variable SPOTIFY_SCOPES : list string.
Variable env : Env.

(** ** The steps of setup *)

Lemma token_check_passes w :
  refresh_fails (token_outcome env (token_calls w)) = None ->
  async_ensure_token_valid env w =
    (set_entry_token
       (token_after (token_outcome env (token_calls w)) (entry_token w))
       (set_token_calls (S (token_calls w)) w), Returned tt).
Proof.
  unfold async_ensure_token_valid.
  destruct (token_outcome env (token_calls w)) as [|t|e]; simpl; intros H;
    try discriminate; destruct w; reflexivity.
Qed.

Lemma token_check_raises w e :
  refresh_fails (token_outcome env (token_calls w)) = Some e ->
  async_ensure_token_valid env w =
    (set_token_calls (S (token_calls w)) w, Raised e).
Proof.
  unfold async_ensure_token_valid.
  destruct (token_outcome env (token_calls w)) as [|t|e']; simpl; intros H;
    try discriminate. congruence.
Qed.

(** *** What a poll leaves alone *)

Lemma get_devices_frame w : same_registry w (fst (get_devices env w)).
Proof.
  unfold get_devices, client_refresh_token, bind, get.
  destruct (refresh_token_function (spotify w)) as [[]|]; cbn;
    [|repeat split].
  unfold _refresh_token, bind, async_ensure_token_valid.
  destruct (token_outcome env (token_calls w)); repeat split.
Qed.

Lemma update_devices_frame w : same_registry w (fst (_update_devices env w)).
Proof.
  unfold _update_devices, try_except.
  pose proof (get_devices_frame w) as Hf.
  destruct (get_devices env w) as [w1 [l|e]]; [exact Hf|].
  destruct (isinstance e SpotifyConnectionError); exact Hf.
Qed.

Lemma run_update_method_frame m w :
  same_registry w (fst (run_update_method env m w)).
Proof.
  destruct m; cbn [run_update_method]; unfold bind.
  - unfold spotify_coordinator_update.
    destruct (playback_outcome env (playback_calls w)); repeat split.
  - pose proof (update_devices_frame w) as Hf.
    destruct (_update_devices env w) as [w1 [l|e]]; exact Hf.
Qed.

Lemma coordinator_poll_spec a w c :
  heap w !! a = Some c ->
  coordinator_poll env a w =
    match run_update_method env (update_method c) w with
    | (w', Returned d) =>
        (set_heap (<[a := poll_succeeded d c]> (heap w')) w', Returned true)
    | (w', Raised e) =>
        (set_heap (<[a := poll_failed e c]> (heap w')) w', Returned false)
    end.
Proof.
  intros H. unfold coordinator_poll, bind, deref, try_except. rewrite H.
  destruct (run_update_method env (update_method c) w) as [w' [d|e]];
    reflexivity.
Qed.

Lemma first_refresh_spec a w c :
  heap w !! a = Some c ->
  async_config_entry_first_refresh env a w =
    match run_update_method env (update_method c) w with
    | (w', Returned d) =>
        (set_heap (<[a := poll_succeeded d c]> (heap w')) w', Returned tt)
    | (w', Raised e) =>
        (set_heap (<[a := poll_failed e c]> (heap w')) w',
         Raised (RaiseFrom ConfigEntryNotReady e))
    end.
Proof.
  intros H. unfold async_config_entry_first_refresh, bind.
  rewrite (coordinator_poll_spec _ _ _ H).
  pose proof (run_update_method_frame (update_method c) w) as (Hh & _).
  destruct (run_update_method env (update_method c) w) as [w' [d|e]];
    [reflexivity|].
  cbn [fst] in Hh. unfold deref. cbn [heap set_heap].
  rewrite list_lookup_insert_eq by (rewrite Hh; eapply lookup_lt_Some; eauto).
  reflexivity.
Qed.

Lemma setup_token_check_passes w :
  refresh_fails (token_outcome env (token_calls w)) = None ->
  setup_token_check env w =
    (set_entry_token
       (token_after (token_outcome env (token_calls w)) (entry_token w))
       (set_token_calls (S (token_calls w)) w), Returned tt).
Proof.
  intros H. unfold setup_token_check.
  erewrite try_except_returned by (apply token_check_passes; exact H).
  reflexivity.
Qed.

Lemma refresh_token_passes w :
  refresh_fails (token_outcome env (token_calls w)) = None ->
  _refresh_token env w =
    (set_entry_token
       (token_after (token_outcome env (token_calls w)) (entry_token w))
       (set_token_calls (S (token_calls w)) w),
     Returned (access_token
       (token_after (token_outcome env (token_calls w)) (entry_token w)))).
Proof.
  intros H. unfold _refresh_token.
  erewrite bind_returned by (apply token_check_passes; exact H).
  destruct w; reflexivity.
Qed.

Lemma get_devices_passes w l :
  refresh_token_function (spotify w) = Some RefreshToken ->
  refresh_fails (token_outcome env (token_calls w)) = None ->
  devices_outcome env (device_calls w) = Returned l ->
  let t := token_after (token_outcome env (token_calls w)) (entry_token w) in
  get_devices env w =
    (set_device_calls (S (device_calls w))
       (set_spotify (mk_client (Some (access_token t)) (Some RefreshToken))
          (set_entry_token t (set_token_calls (S (token_calls w)) w))),
     Returned l).
Proof.
  intros Hf Ht Hd t. unfold get_devices, client_refresh_token.
  unfold bind at 1. unfold bind at 1. cbn [get]. rewrite Hf.
  cbn [call_refresh_function].
  erewrite bind_returned by (apply refresh_token_passes; exact Ht).
  destruct w; cbn in *. rewrite Hd, Hf. reflexivity.
Qed.

Lemma update_devices_passes w l :
  refresh_token_function (spotify w) = Some RefreshToken ->
  refresh_fails (token_outcome env (token_calls w)) = None ->
  devices_outcome env (device_calls w) = Returned l ->
  let t := token_after (token_outcome env (token_calls w)) (entry_token w) in
  _update_devices env w =
    (set_device_calls (S (device_calls w))
       (set_spotify (mk_client (Some (access_token t)) (Some RefreshToken))
          (set_entry_token t (set_token_calls (S (token_calls w)) w))),
     Returned l).
Proof.
  intros Hf Ht Hd t. unfold _update_devices.
  erewrite try_except_returned by (apply get_devices_passes; eassumption).
  reflexivity.
Qed.

Lemma get_devices_request_fails w e :
  refresh_token_function (spotify w) = Some RefreshToken ->
  refresh_fails (token_outcome env (token_calls w)) = None ->
  devices_outcome env (device_calls w) = Raised e ->
  let t := token_after (token_outcome env (token_calls w)) (entry_token w) in
  get_devices env w =
    (set_device_calls (S (device_calls w))
       (set_spotify (mk_client (Some (access_token t)) (Some RefreshToken))
          (set_entry_token t (set_token_calls (S (token_calls w)) w))),
     Raised e).
Proof.
  intros Hf Ht Hd t. unfold get_devices, client_refresh_token.
  unfold bind at 1. unfold bind at 1. cbn [get]. rewrite Hf.
  cbn [call_refresh_function].
  erewrite bind_returned by (apply refresh_token_passes; exact Ht).
  destruct w; cbn in *. rewrite Hd, Hf. reflexivity.
Qed.

Lemma get_devices_refresh_fails w e :
  refresh_token_function (spotify w) = Some RefreshToken ->
  refresh_fails (token_outcome env (token_calls w)) = Some e ->
  get_devices env w = (set_token_calls (S (token_calls w)) w, Raised e).
Proof.
  intros Hf Ht. unfold get_devices, client_refresh_token.
  rewrite bind_assoc, bind_get, Hf. cbn [call_refresh_function].
  unfold _refresh_token. rewrite !bind_assoc.
  erewrite bind_raised by (apply token_check_raises; exact Ht).
  reflexivity.
Qed.

(** The part of [async_setup_entry] up to the construction of the device
    coordinator, when the token check and the first poll of the primary
    coordinator pass. *)
Ltac run_setup_to_device_coordinator H1 H2 :=
  unfold async_setup_entry;
  rewrite bind_get; cbn beta zeta; world;
  erewrite bind_returned by (apply setup_token_check_passes; exact H1); world;
  rewrite bind_modify; world;
  rewrite bind_assoc; unfold session_access_token;
  rewrite bind_assoc, bind_get, bind_ret; unfold authenticate;
  rewrite bind_modify; world; rewrite bind_modify; world;
  unfold new_spotify_coordinator; rewrite bind_assoc, bind_get;
  erewrite bind_returned by reflexivity; world;
  (erewrite bind_returned; cycle 1);
  [ erewrite first_refresh_spec by apply lookup_at_end;
    cbn [update_method run_update_method];
    unfold spotify_coordinator_update; unfold bind; world; rewrite H2;
    cbn [ret]; world; rewrite insert_at_end; reflexivity
  | world; unfold new_device_coordinator; rewrite bind_assoc, bind_get;
    erewrite bind_returned by reflexivity; world ].

Lemma setup_reaches_scope_check w0 p l :
  reaches_scope_check env w0 p l ->
  async_setup_entry DOMAIN SPOTIFY_SCOPES env w0 =
    let w := world_at_scope_check DOMAIN env w0 p l in
    if issuperset (granted_scopes (entry_token w)) SPOTIFY_SCOPES
    then (set_forwarded (forwarded w ++ PLATFORMS) w, Returned true)
    else (w, Raised (Raise ConfigEntryAuthFailed)).
Proof.
  intros (H1 & H2 & H3 & H4).
  destruct w0 as [eid title tok rd cl hp sv fw lg sr tc pc dc].
  cbn in H1, H2, H3, H4.
  run_setup_to_device_coordinator H1 H2.
  erewrite bind_returned; cycle 1.
  { erewrite first_refresh_spec by apply lookup_at_end.
    cbn [update_method run_update_method].
    erewrite bind_returned
      by (apply update_devices_passes; [reflexivity|exact H3|exact H4]).
    cbn [ret]. world. rewrite insert_at_end. reflexivity. }
  world. unfold async_register. rewrite !bind_modify. world.
  rewrite bind_get. world.
  rewrite length_app, Nat.add_1_r, <- app_assoc.
  unfold world_at_scope_check, poll_succeeded. world.
  cbn [name config_entry update_interval update_method List.app].
  destruct (issuperset _ SPOTIFY_SCOPES); cbn [negb].
  - rewrite bind_modify. reflexivity.
  - reflexivity.
Qed.

Lemma update_devices_translates w w' e :
  get_devices env w = (w', Raised e) ->
  _update_devices env w = (w', Raised (translated e)).
Proof.
  intros H. unfold _update_devices, translated.
  erewrite try_except_raised by exact H.
  destruct (isinstance e SpotifyConnectionError); reflexivity.
Qed.

Lemma setup_first_device_poll_fails w0 p e :
  refresh_fails (token_outcome env (token_calls w0)) = None ->
  playback_outcome env (playback_calls w0) = Returned p ->
  first_device_poll_fails env w0 e ->
  let r := async_setup_entry DOMAIN SPOTIFY_SCOPES env w0 in
  snd r = Raised (RaiseFrom ConfigEntryNotReady (translated e)) /\
  services (fst r) = services w0 /\
  runtime_data (fst r) = runtime_data w0 /\
  forwarded (fst r) = forwarded w0.
Proof.
  intros H1 H2 H3.
  destruct w0 as [eid title tok rd cl hp sv fw lg sr tc pc dc].
  unfold first_device_poll_fails in H3. cbn in H1, H2, H3. cbn zeta.
  run_setup_to_device_coordinator H1 H2.
  destruct H3 as [H3|[H3 H4]].
  - erewrite bind_raised; cycle 1.
    { erewrite first_refresh_spec by apply lookup_at_end.
      cbn [update_method run_update_method].
      erewrite bind_raised; cycle 1.
      { apply update_devices_translates.
        apply get_devices_refresh_fails; [reflexivity|exact H3]. }
      world. reflexivity. }
    repeat split.
  - erewrite bind_raised; cycle 1.
    { erewrite first_refresh_spec by apply lookup_at_end.
      cbn [update_method run_update_method].
      erewrite bind_raised; cycle 1.
      { apply update_devices_translates.
        apply get_devices_request_fails; [reflexivity|exact H3|exact H4]. }
      world. reflexivity. }
    repeat split.
Qed.

Lemma async_refresh_spec a w c :
  heap w !! a = Some c ->
  async_refresh env a w =
    match run_update_method env (update_method c) w with
    | (w', Returned d) =>
        (set_heap (<[a := poll_succeeded d c]> (heap w')) w', Returned tt)
    | (w', Raised e) =>
        (set_log (log w' ++ [mk_log (name c) e])
           (set_heap (<[a := poll_failed e c]> (heap w')) w'), Returned tt)
    end.
Proof.
  intros H. unfold async_refresh, bind.
  rewrite (coordinator_poll_spec _ _ _ H).
  pose proof (run_update_method_frame (update_method c) w) as (Hh & _).
  destruct (run_update_method env (update_method c) w) as [w' [d|e]];
    [reflexivity|].
  cbn [fst] in Hh. unfold log_failure, bind, deref. cbn [heap set_heap].
  rewrite list_lookup_insert_eq by (rewrite Hh; eapply lookup_lt_Some; eauto).
  reflexivity.
Qed.

(** ** The token provider *)

(** C2 (as amended): when the session cannot refresh the token, the refresh
    callback fails with the session's own exception, unchanged, and the
    token check of setup fails with ConfigEntryNotReady if that exception
    is an aiohttp ClientError and with the session's own exception
    otherwise; when the session can, the check completes and the callback
    returns the access-token string the session then holds. *)
Theorem ensure_valid_outcomes (w : World) :
  match token_outcome env (token_calls w) with
  | RefreshFails e =>
      snd (_refresh_token env w) = Raised e /\
      snd (setup_token_check env w) =
        Raised (if isinstance e ClientError
                then RaiseFrom ConfigEntryNotReady e else e)
  | (StillValid | Refreshed _) as o =>
      snd (_refresh_token env w) =
        Returned (access_token (token_after o (entry_token w))) /\
      entry_token (fst (_refresh_token env w)) = token_after o (entry_token w) /\
      snd (setup_token_check env w) = Returned tt
  end.
Proof.
  destruct (token_outcome env (token_calls w)) as [|t|e] eqn:Ho.
  - assert (Hp : refresh_fails (token_outcome env (token_calls w)) = None)
      by (rewrite Ho; reflexivity).
    rewrite (refresh_token_passes _ Hp), (setup_token_check_passes _ Hp), Ho.
    destruct w; repeat split.
  - assert (Hp : refresh_fails (token_outcome env (token_calls w)) = None)
      by (rewrite Ho; reflexivity).
    rewrite (refresh_token_passes _ Hp), (setup_token_check_passes _ Hp), Ho.
    destruct w; repeat split.
  - assert (Hf : refresh_fails (token_outcome env (token_calls w)) = Some e)
      by (rewrite Ho; reflexivity).
    split.
    + unfold _refresh_token.
      erewrite bind_raised by (apply token_check_raises; exact Hf).
      reflexivity.
    + unfold setup_token_check.
      erewrite try_except_raised by (apply token_check_raises; exact Hf).
      destruct (isinstance e ClientError); reflexivity.
Qed.

(** ** The adapter *)

Lemma translated_not_connection_error e :
  isinstance (translated e) SpotifyConnectionError = false.
Proof.
  unfold translated.
  destruct (isinstance e SpotifyConnectionError) eqn:H; [reflexivity|exact H].
Qed.

Lemma update_devices_outcome w :
  snd (_update_devices env w) =
    match snd (get_devices env w) with
    | Returned l => Returned l
    | Raised e => Raised (translated e)
    end.
Proof.
  destruct (get_devices env w) as [w' [l|e]] eqn:H.
  - unfold _update_devices. erewrite try_except_returned by exact H.
    reflexivity.
  - rewrite (update_devices_translates _ _ _ H). reflexivity.
Qed.

Lemma async_refresh_returns a w :
  a < length (heap w) -> snd (async_refresh env a w) = Returned tt.
Proof.
  intros H. apply lookup_lt_is_Some in H as [c Hc].
  rewrite (async_refresh_spec _ _ _ Hc).
  destruct (run_update_method env (update_method c) w) as [w' [d|e]];
    reflexivity.
Qed.

(** C6 (as amended): at every device-list fetch, a connection failure
    that the API client reports (SpotifyConnectionError) is translated
    into UpdateFailed at the adapter boundary and never leaves the adapter;
    an exception of any other class, such as an aiohttp ClientError of the
    token refresh callback, leaves the adapter unchanged and reaches the
    coordinator; the coordinator's manual refresh raises nothing of it to
    the service handler. *)
Theorem update_devices_translation (w : World) :
  (forall e, snd (get_devices env w) = Raised e ->
     isinstance e SpotifyConnectionError = true ->
     snd (_update_devices env w) = Raised (RaiseFrom UpdateFailed e)) /\
  (forall e, snd (get_devices env w) = Raised e ->
     isinstance e SpotifyConnectionError = false ->
     snd (_update_devices env w) = Raised e) /\
  (forall e, snd (_update_devices env w) = Raised e ->
     isinstance e SpotifyConnectionError = false) /\
  (forall a call, a < length (heap w) ->
     snd (_handle_update_devices_service env a call w) = Returned tt).
Proof.
  repeat split.
  - intros e H Hi. rewrite update_devices_outcome, H. unfold translated.
    rewrite Hi. reflexivity.
  - intros e H Hi. rewrite update_devices_outcome, H. unfold translated.
    rewrite Hi. reflexivity.
  - intros e. rewrite update_devices_outcome.
    destruct (snd (get_devices env w)) as [l|e']; [discriminate|].
    intros [= <-]. apply translated_not_connection_error.
  - intros a call H. apply async_refresh_returns, H.
Qed.

(** ** The device coordinator *)

(** C4: a device poll that fails after a successful one leaves readers with
    the device list fetched before: the snapshot is the same through the
    coordinator and through the entry's runtime data, the call returns, and
    a poll that changes what readers see is a successful one. *)
Theorem failed_poll_keeps_snapshot (w : World) (rd : SpotifyData)
    (c : Coordinator) (d : CoordinatorData) (e : Exn) :
  runtime_data w = Some rd ->
  heap w !! devices rd = Some c ->
  update_method c = UpdateDevices ->
  read_devices w = Some d ->
  snd (_update_devices env w) = Raised e ->
  let w' := fst (async_refresh env (devices rd) w) in
  read_devices w' = Some d /\
  read_data (devices rd) w' = Some d /\
  snd (async_refresh env (devices rd) w) = Returned tt.
Proof.
  intros Hrd Hc Hm Hd He w'. subst w'.
  rewrite (async_refresh_spec _ _ _ Hc), Hm. cbn [run_update_method].
  pose proof (update_devices_frame w) as (Hh & Hr & _).
  unfold bind. destruct (_update_devices env w) as [w1 [l|e1]];
    [discriminate|].
  cbn [fst snd] in *.
  assert (Hdata : data c = Some d).
  { unfold read_devices, read_data in Hd. rewrite Hrd in Hd. cbn in Hd.
    rewrite Hc in Hd. exact Hd. }
  assert (Hlt : devices rd < length (heap w1))
    by (rewrite Hh; eapply lookup_lt_Some; eauto).
  assert (Hread : read_data (devices rd)
            (set_log (log w1 ++ [mk_log (name c) e1])
               (set_heap (<[devices rd := poll_failed e1 c]> (heap w1)) w1))
          = Some d).
  { unfold read_data. cbn [heap set_log set_heap].
    rewrite list_lookup_insert_eq by exact Hlt. exact Hdata. }
  repeat split; [|exact Hread].
  unfold read_devices. cbn [runtime_data set_log set_heap]. rewrite Hr, Hrd.
  exact Hread.
Qed.

(** ** The service handlers *)

(** C5: the update_devices handler returns nothing and raises nothing,
    whatever the refresh it triggers does: it sets no result for the call,
    and a failed refresh leaves one record in the coordinator's log. *)
Theorem update_devices_handler_is_silent (a : addr) (call : ServiceCall)
    (w : World) (c : Coordinator) :
  heap w !! a = Some c ->
  let r := _handle_update_devices_service env a call w in
  snd r = Returned tt /\
  service_results (fst r) = service_results w /\
  match snd (run_update_method env (update_method c) w) with
  | Returned _ => log (fst r) = log w
  | Raised e => log (fst r) = log w ++ [mk_log (name c) e]
  end.
Proof.
  intros Hc r. subst r. unfold _handle_update_devices_service.
  rewrite (async_refresh_spec _ _ _ Hc).
  pose proof (run_update_method_frame (update_method c) w)
    as (_ & _ & _ & Hl & _ & Hs).
  destruct (run_update_method env (update_method c) w) as [w' [d|e]];
    cbn [fst snd] in *; cbn [service_results log set_log set_heap];
    rewrite ?Hl, ?Hs; repeat split.
Qed.

(** C8 (the code falls short of it): the search handler builds the list
    sonuc1, sonuc2, sonuc3 and hands it to nobody.  Whatever the call
    carries and whatever the state, looking up async_set_results on the
    service registry raises AttributeError: the handler returns no list,
    sets no response and leaves the world as it found it, also when it is
    run as the registered handler. *)
Theorem search_handler_raises (call : ServiceCall) (w : World) :
  _handle_search call w = (w, Raised (Raise AttributeError)) /\
  run_handler env HandleSearch call w = (w, Raised (Raise AttributeError)).
Proof. split; reflexivity. Qed.

(** The platform calling the search service of a registry that holds the
    search handler meets the same AttributeError. *)
Lemma search_service_raises (call : ServiceCall) (w : World) :
  services w !! (DOMAIN, SERVICE_SEARCH) = Some HandleSearch ->
  async_call env DOMAIN SERVICE_SEARCH call w =
    (w, Raised (Raise AttributeError)).
Proof.
  intros H. unfold async_call. rewrite bind_get, H. reflexivity.
Qed.

(** ** Setup *)

Lemma issuperset_spec (granted : gset string) (required : list string) :
  issuperset granted required = true <-> list_to_set required ⊆ granted.
Proof.
  unfold issuperset. induction required as [|s required IH]; cbn.
  - split; [intros _; apply empty_subseteq|reflexivity].
  - rewrite andb_true_iff, IH, bool_decide_eq_true.
    rewrite union_subseteq, singleton_subseteq_l. reflexivity.
Qed.

Lemma strict_subset_not_superset (granted : gset string)
    (required : list string) :
  granted ⊂ list_to_set required -> issuperset granted required = false.
Proof.
  intros [_ Hn]. destruct (issuperset granted required) eqn:H; [|reflexivity].
  apply issuperset_spec in H. contradiction.
Qed.

Lemma setup_token_at_scope_check w0 p l :
  reaches_scope_check env w0 p l ->
  entry_token (fst (async_setup_entry DOMAIN SPOTIFY_SCOPES env w0)) =
  entry_token (world_at_scope_check DOMAIN env w0 p l).
Proof.
  intros H. rewrite (setup_reaches_scope_check _ _ _ H). cbn zeta.
  destruct (issuperset _ SPOTIFY_SCOPES); reflexivity.
Qed.

Lemma setup_scope_check_fails w0 p l :
  reaches_scope_check env w0 p l ->
  issuperset
    (granted_scopes
       (entry_token (fst (async_setup_entry DOMAIN SPOTIFY_SCOPES env w0))))
    SPOTIFY_SCOPES = false ->
  async_setup_entry DOMAIN SPOTIFY_SCOPES env w0 =
    (world_at_scope_check DOMAIN env w0 p l,
     Raised (Raise ConfigEntryAuthFailed)).
Proof.
  intros H Hs. rewrite (setup_token_at_scope_check _ _ _ H) in Hs.
  rewrite (setup_reaches_scope_check _ _ _ H). cbn zeta. rewrite Hs.
  reflexivity.
Qed.

Lemma setup_scope_check_passes w0 p l :
  reaches_scope_check env w0 p l ->
  issuperset
    (granted_scopes
       (entry_token (fst (async_setup_entry DOMAIN SPOTIFY_SCOPES env w0))))
    SPOTIFY_SCOPES = true ->
  async_setup_entry DOMAIN SPOTIFY_SCOPES env w0 =
    (set_forwarded (forwarded w0 ++ PLATFORMS)
       (world_at_scope_check DOMAIN env w0 p l), Returned true).
Proof.
  intros H Hs. rewrite (setup_token_at_scope_check _ _ _ H) in Hs.
  rewrite (setup_reaches_scope_check _ _ _ H). cbn zeta. rewrite Hs.
  reflexivity.
Qed.

Lemma service_names_differ :
  (DOMAIN, SERVICE_UPDATE_DEVICES) <> (DOMAIN, SERVICE_SEARCH).
Proof. intros [=]. Qed.

(** C1 (as amended): a setup run that gets as far as the scope validation
    with a granted scope set that is a strict subset of the required one
    fails with ConfigEntryAuthFailed; by then both coordinators have been
    created and have done their first poll, and the entry is forwarded to
    no platform. *)
Theorem strict_subset_fails_auth (w0 : World) (p : Playback) (l : list Device) :
  reaches_scope_check env w0 p l ->
  granted_scopes
    (entry_token (fst (async_setup_entry DOMAIN SPOTIFY_SCOPES env w0)))
    ⊂ list_to_set SPOTIFY_SCOPES ->
  let r := async_setup_entry DOMAIN SPOTIFY_SCOPES env w0 in
  snd r = Raised (Raise ConfigEntryAuthFailed) /\
  length (heap (fst r)) = 2 + length (heap w0) /\
  read_data (length (heap w0)) (fst r) = Some (PlaybackData p) /\
  read_data (S (length (heap w0))) (fst r) = Some (DeviceList l) /\
  forwarded (fst r) = forwarded w0.
Proof.
  intros H Hs r. subst r.
  rewrite (setup_scope_check_fails _ _ _ H)
    by (apply strict_subset_not_superset, Hs).
  unfold world_at_scope_check, read_data. cbn [fst snd heap forwarded].
  rewrite length_app. cbn [length].
  rewrite lookup_app_r by lia. rewrite Nat.sub_diag.
  rewrite (lookup_app_r _ _ (S _)) by lia.
  replace (S (length (heap w0)) - length (heap w0)) with 1 by lia.
  repeat split. lia.
Qed.

(** C3: a setup run whose first device poll fails, with a transport error
    or any other, fails with ConfigEntryNotReady, wherever in the poll the
    error occurs; a connection error of the client is its cause through
    the UpdateFailed of the adapter.  The run registers no service,
    attaches no runtime data and forwards the entry to no platform. *)
Theorem first_device_poll_failure_not_ready (w0 : World) (p : Playback)
    (e : Exn) :
  refresh_fails (token_outcome env (token_calls w0)) = None ->
  playback_outcome env (playback_calls w0) = Returned p ->
  first_device_poll_fails env w0 e ->
  let r := async_setup_entry DOMAIN SPOTIFY_SCOPES env w0 in
  raised_class (snd r) = Some ConfigEntryNotReady /\
  snd r =
    Raised (RaiseFrom ConfigEntryNotReady
              (if isinstance e SpotifyConnectionError
               then RaiseFrom UpdateFailed e else e)) /\
  services (fst r) = services w0 /\
  runtime_data (fst r) = runtime_data w0 /\
  forwarded (fst r) = forwarded w0.
Proof.
  intros H1 H2 H3.
  pose proof (setup_first_device_poll_fails _ _ _ H1 H2 H3) as (Hr & H).
  cbn zeta. rewrite Hr. split; [reflexivity|]. split; [reflexivity|exact H].
Qed.

(** C7: a setup run whose token check and first polls succeed and whose
    granted scopes include every required scope returns true; it has
    created exactly two coordinators, the primary one and the device one,
    the runtime data of the entry refers to them and to the session, and
    the entry is forwarded to the platforms. *)
Theorem setup_succeeds (w0 : World) (p : Playback) (l : list Device) :
  reaches_scope_check env w0 p l ->
  list_to_set SPOTIFY_SCOPES ⊆
    granted_scopes
      (entry_token (fst (async_setup_entry DOMAIN SPOTIFY_SCOPES env w0))) ->
  let r := async_setup_entry DOMAIN SPOTIFY_SCOPES env w0 in
  snd r = Returned true /\
  runtime_data (fst r) =
    Some (mk_spotify_data (length (heap w0)) (Session (entry_id_of w0))
            (S (length (heap w0)))) /\
  (exists c d,
     heap (fst r) = heap w0 ++ [c; d] /\
     update_method c = SpotifyCoordinatorUpdate /\
     data c = Some (PlaybackData p) /\
     update_method d = UpdateDevices /\
     data d = Some (DeviceList l)) /\
  forwarded (fst r) = forwarded w0 ++ PLATFORMS.
Proof.
  intros H Hs r. subst r.
  rewrite (setup_scope_check_passes _ _ _ H) by (apply issuperset_spec, Hs).
  unfold world_at_scope_check.
  cbn [fst snd heap forwarded runtime_data set_forwarded].
  repeat split. eexists _, _. repeat split.
Qed.

(** C9: the device coordinator that setup creates polls every 5 minutes,
    that is every 300 seconds; the primary coordinator is created without
    an interval of this module's choosing. *)
Theorem coordinator_intervals (w0 : World) (p : Playback) (l : list Device) :
  reaches_scope_check env w0 p l ->
  exists c d,
    heap (fst (async_setup_entry DOMAIN SPOTIFY_SCOPES env w0)) =
      heap w0 ++ [c; d] /\
    update_method d = UpdateDevices /\
    update_interval d = Some (timedelta_minutes 5) /\
    timedelta_minutes 5 = mk_timedelta 0 300 0 /\
    total_seconds (timedelta_minutes 5) = 300%Z /\
    update_method c = SpotifyCoordinatorUpdate /\
    update_interval c = None.
Proof.
  intros H. rewrite (setup_reaches_scope_check _ _ _ H). cbn zeta.
  eexists _, _.
  split; [destruct (issuperset _ SPOTIFY_SCOPES); reflexivity|].
  repeat split.
Qed.

(** C10: a setup run that gets as far as the scope validation and fails
    it raises ConfigEntryAuthFailed with both services registered and the
    runtime data attached to the entry: what was done before the check
    stays done. *)
Theorem scope_failure_keeps_side_effects (w0 : World) (p : Playback)
    (l : list Device) :
  reaches_scope_check env w0 p l ->
  issuperset
    (granted_scopes
       (entry_token (fst (async_setup_entry DOMAIN SPOTIFY_SCOPES env w0))))
    SPOTIFY_SCOPES = false ->
  let r := async_setup_entry DOMAIN SPOTIFY_SCOPES env w0 in
  snd r = Raised (Raise ConfigEntryAuthFailed) /\
  services (fst r) !! (DOMAIN, SERVICE_UPDATE_DEVICES) =
    Some (HandleUpdateDevices (S (length (heap w0)))) /\
  services (fst r) !! (DOMAIN, SERVICE_SEARCH) = Some HandleSearch /\
  runtime_data (fst r) =
    Some (mk_spotify_data (length (heap w0)) (Session (entry_id_of w0))
            (S (length (heap w0)))) /\
  forwarded (fst r) = forwarded w0.
Proof.
  intros H Hs r. subst r. rewrite (setup_scope_check_fails _ _ _ H Hs).
  unfold world_at_scope_check. cbn [fst snd services runtime_data forwarded].
  rewrite lookup_insert_ne by (apply not_eq_sym, service_names_differ).
  rewrite !lookup_insert_eq. repeat split.
Qed.


(** *** Handlers refer to live coordinators *)

Lemma setup_heap_bound w0 p l :
  reaches_scope_check env w0 p l ->
  handlers_live w0 ->
  handlers_live (fst (async_setup_entry DOMAIN SPOTIFY_SCOPES env w0)).
Proof.
  intros H Hl. rewrite (setup_reaches_scope_check _ _ _ H). cbn zeta.
  assert (Hw : handlers_live (world_at_scope_check DOMAIN env w0 p l)).
  { intros key a. unfold world_at_scope_check. cbn [services heap].
    rewrite length_app. cbn [length].
    rewrite lookup_insert. destruct (decide _) as [_|_]; [discriminate|].
    rewrite lookup_insert. destruct (decide _) as [_|_].
    - intros [= <-]. lia.
    - intros Hk. apply Hl in Hk. lia. }
  destruct (issuperset _ SPOTIFY_SCOPES); exact Hw.
Qed.

Lemma async_refresh_handlers_live a w :
  handlers_live w -> handlers_live (fst (async_refresh env a w)).
Proof.
  intros Hl. destruct (heap w !! a) as [c|] eqn:Hc.
  - rewrite (async_refresh_spec _ _ _ Hc).
    pose proof (run_update_method_frame (update_method c) w)
      as (Hh & _ & Hs & _).
    destruct (run_update_method env (update_method c) w) as [w' [d|e]];
      cbn [fst] in *; intros key b; cbn [services heap set_log set_heap];
      rewrite length_insert, Hs, Hh; apply Hl.
  - unfold async_refresh, coordinator_poll, bind, deref. rewrite Hc.
    exact Hl.
Qed.

(** *** The snapshot over many polls *)

Lemma async_refresh_keeps_snapshot a w :
  is_Some (read_data a w) ->
  is_Some (read_data a (fst (async_refresh env a w))).
Proof.
  intros [d Hd]. unfold read_data in Hd.
  destruct (heap w !! a) as [c|] eqn:Hc; [|discriminate].
  cbn in Hd. rewrite (async_refresh_spec _ _ _ Hc).
  pose proof (run_update_method_frame (update_method c) w) as (Hh & _).
  assert (Hlt : a < length (heap w)) by (eapply lookup_lt_Some; eauto).
  destruct (run_update_method env (update_method c) w) as [w' [d'|e]];
    cbn [fst] in *; unfold read_data; cbn [heap set_log set_heap];
    rewrite list_lookup_insert_eq by (rewrite Hh; exact Hlt); cbn; eauto.
Qed.

(** Once a coordinator has a snapshot, no sequence of polls, failed or
    not, leaves its readers without one. *)
Lemma snapshot_never_cleared n a w :
  is_Some (read_data a w) ->
  is_Some (read_data a (poll_times env n a w)).
Proof.
  revert w. induction n as [|n IH]; intros w H; cbn [poll_times].
  - exact H.
  - apply IH, async_refresh_keeps_snapshot, H.
Qed.

(** *** The services of a set-up entry *)

Lemma setup_registers_services w0 p l :
  reaches_scope_check env w0 p l ->
  let w := fst (async_setup_entry DOMAIN SPOTIFY_SCOPES env w0) in
  services w !! (DOMAIN, SERVICE_UPDATE_DEVICES) =
    Some (HandleUpdateDevices (S (length (heap w0)))) /\
  services w !! (DOMAIN, SERVICE_SEARCH) = Some HandleSearch /\
  length (heap w) = 2 + length (heap w0).
Proof.
  intros H. rewrite (setup_reaches_scope_check _ _ _ H). cbn zeta.
  assert (Hw : let w := world_at_scope_check DOMAIN env w0 p l in
               services w !! (DOMAIN, SERVICE_UPDATE_DEVICES) =
                 Some (HandleUpdateDevices (S (length (heap w0)))) /\
               services w !! (DOMAIN, SERVICE_SEARCH) = Some HandleSearch /\
               length (heap w) = 2 + length (heap w0)).
  { unfold world_at_scope_check. cbn [services heap].
    rewrite lookup_insert_ne by (apply not_eq_sym, service_names_differ).
    rewrite !lookup_insert_eq, length_app. cbn [length].
    repeat split. lia. }
  destruct (issuperset _ SPOTIFY_SCOPES); exact Hw.
Qed.

(** Called through the registry of a set-up entry, the search service
    runs the search handler and the update_devices service returns. *)
Lemma services_after_setup w0 p l call :
  reaches_scope_check env w0 p l ->
  let w := fst (async_setup_entry DOMAIN SPOTIFY_SCOPES env w0) in
  async_call env DOMAIN SERVICE_SEARCH call w = _handle_search call w /\
  snd (async_call env DOMAIN SERVICE_UPDATE_DEVICES call w) = Returned tt.
Proof.
  intros H w. destruct (setup_registers_services _ _ _ H) as (Hu & Hs & Hl).
  fold w in Hu, Hs, Hl. unfold async_call. rewrite !bind_get, Hu, Hs.
  split; [reflexivity|]. cbn [run_handler].
  apply async_refresh_returns. lia.
Qed.

(** A rejected token refresh leaves the adapter as it came. *)
Lemma update_devices_refresh_error w e :
  refresh_token_function (spotify w) = Some RefreshToken ->
  refresh_fails (token_outcome env (token_calls w)) = Some e ->
  snd (_update_devices env w) = Raised (translated e).
Proof.
  intros Hf Hr.
  rewrite (update_devices_translates _ _ _
             (get_devices_refresh_fails _ _ Hf Hr)).
  reflexivity.
Qed.

(** ** Setup, whatever the outside world answers *)

Lemma setup_token_check_raises w e :
  refresh_fails (token_outcome env (token_calls w)) = Some e ->
  setup_token_check env w =
    (set_token_calls (S (token_calls w)) w,
     Raised (if isinstance e ClientError
             then RaiseFrom ConfigEntryNotReady e else e)).
Proof.
  intros H. unfold setup_token_check.
  erewrite try_except_raised by (apply token_check_raises; exact H).
  destruct (isinstance e ClientError); reflexivity.
Qed.

Lemma setup_token_check_fails (w0 : World) (e : Exn) :
  refresh_fails (token_outcome env (token_calls w0)) = Some e ->
  async_setup_entry DOMAIN SPOTIFY_SCOPES env w0 =
    (set_token_calls (S (token_calls w0)) w0,
     Raised (if isinstance e ClientError
             then RaiseFrom ConfigEntryNotReady e else e)).
Proof.
  intros H. unfold async_setup_entry. rewrite bind_get. cbn beta zeta.
  erewrite bind_raised by (apply setup_token_check_raises; exact H).
  reflexivity.
Qed.

(** The part of [async_setup_entry] up to the construction of the primary
    coordinator, when the token check passes. *)
Ltac run_setup_to_primary_coordinator H1 :=
  unfold async_setup_entry;
  rewrite bind_get; cbn beta zeta; world;
  erewrite bind_returned by (apply setup_token_check_passes; exact H1); world;
  rewrite bind_modify; world;
  rewrite bind_assoc; unfold session_access_token;
  rewrite bind_assoc, bind_get, bind_ret; unfold authenticate;
  rewrite bind_modify; world; rewrite bind_modify; world;
  unfold new_spotify_coordinator; rewrite bind_assoc, bind_get;
  erewrite bind_returned by reflexivity; world.

Lemma setup_primary_poll_fails (w0 : World) (e : Exn) :
  refresh_fails (token_outcome env (token_calls w0)) = None ->
  playback_outcome env (playback_calls w0) = Raised e ->
  let r := async_setup_entry DOMAIN SPOTIFY_SCOPES env w0 in
  snd r = Raised (RaiseFrom ConfigEntryNotReady e) /\
  length (heap (fst r)) = S (length (heap w0)) /\
  read_data (length (heap w0)) (fst r) = None /\
  device_calls (fst r) = device_calls w0 /\
  services (fst r) = services w0 /\
  runtime_data (fst r) = runtime_data w0 /\
  forwarded (fst r) = forwarded w0.
Proof.
  intros H1 H2.
  destruct w0 as [eid title tok rd cl hp sv fw lg sr tc pc dc].
  cbn in H1, H2. cbn zeta.
  run_setup_to_primary_coordinator H1.
  erewrite bind_raised; cycle 1.
  { erewrite first_refresh_spec by apply lookup_at_end.
    cbn [update_method run_update_method].
    unfold spotify_coordinator_update, bind. world. rewrite H2. world.
    rewrite insert_at_end. reflexivity. }
  cbn [fst snd]. unfold read_data. world.
  rewrite length_app, lookup_at_end. cbn [length]. repeat split. lia.
Qed.

Lemma refresh_fails_cases (o : TokenOutcome) :
  {e | refresh_fails o = Some e} + {refresh_fails o = None}.
Proof. destruct o as [|t|e]; [right|right|left; exists e]; reflexivity. Qed.

(** The four answers of the outside world that decide how far a setup
    run of the model gets. *)
Lemma setup_runs (w0 : World) :
  (exists e, refresh_fails (token_outcome env (token_calls w0)) = Some e) \/
  (refresh_fails (token_outcome env (token_calls w0)) = None /\
   exists e, playback_outcome env (playback_calls w0) = Raised e) \/
  (refresh_fails (token_outcome env (token_calls w0)) = None /\
   exists p e, playback_outcome env (playback_calls w0) = Returned p /\
               first_device_poll_fails env w0 e) \/
  (exists p l, reaches_scope_check env w0 p l).
Proof.
  unfold reaches_scope_check, first_device_poll_fails.
  destruct (refresh_fails_cases (token_outcome env (token_calls w0)))
    as [[e He]|H1]; [left; eauto|right].
  destruct (playback_outcome env (playback_calls w0)) as [p|e];
    [right|left; eauto].
  destruct (refresh_fails_cases (token_outcome env (S (token_calls w0))))
    as [[e He]|H3]; [left; eauto 10|].
  destruct (devices_outcome env (device_calls w0)) as [l|e];
    [right; eauto 10|left; eauto 10].
Qed.

(** The entry is forwarded to the platforms exactly when setup returns
    true; a setup that raises, wherever it raises, forwards nothing. *)
Theorem platforms_forwarded_iff_success (w0 : World) :
  let r := async_setup_entry DOMAIN SPOTIFY_SCOPES env w0 in
  forwarded (fst r) =
    match snd r with
    | Returned _ => forwarded w0 ++ PLATFORMS
    | Raised _ => forwarded w0
    end.
Proof.
  cbn zeta.
  destruct (setup_runs w0)
    as [[e H1]|[[H1 [e H2]]|[[H1 (p & e & H2 & H3)]|(p & l & H)]]].
  - rewrite (setup_token_check_fails _ _ H1). reflexivity.
  - destruct (setup_primary_poll_fails _ _ H1 H2)
      as (-> & _ & _ & _ & _ & _ & ->). reflexivity.
  - destruct (setup_first_device_poll_fails _ _ _ H1 H2 H3)
      as (-> & _ & _ & ->). reflexivity.
  - rewrite (setup_reaches_scope_check _ _ _ H). cbn zeta.
    destruct (issuperset _ SPOTIFY_SCOPES); reflexivity.
Qed.


(** A token check that fails ends setup on the spot: the session's error
    is raised, as ConfigEntryNotReady if it is an aiohttp ClientError and as
    it is otherwise, and nothing but the call to the session has happened:
    no client, no coordinator, no service, no runtime data. *)
Theorem token_check_failure_stops_setup (w0 : World) (e : Exn) :
  refresh_fails (token_outcome env (token_calls w0)) = Some e ->
  async_setup_entry DOMAIN SPOTIFY_SCOPES env w0 =
    (set_token_calls (S (token_calls w0)) w0,
     Raised (if isinstance e ClientError
             then RaiseFrom ConfigEntryNotReady e else e)).
Proof. apply setup_token_check_fails. Qed.

(** A first poll of the primary coordinator that fails ends setup with
    ConfigEntryNotReady, caused by the failure: the primary coordinator is
    the only object created and holds no snapshot, the device list is
    never requested, no service is registered and nothing is attached or
    forwarded. *)
Theorem primary_poll_failure_stops_setup (w0 : World) (e : Exn) :
  refresh_fails (token_outcome env (token_calls w0)) = None ->
  playback_outcome env (playback_calls w0) = Raised e ->
  let r := async_setup_entry DOMAIN SPOTIFY_SCOPES env w0 in
  snd r = Raised (RaiseFrom ConfigEntryNotReady e) /\
  length (heap (fst r)) = S (length (heap w0)) /\
  read_data (length (heap w0)) (fst r) = None /\
  device_calls (fst r) = device_calls w0 /\
  services (fst r) = services w0 /\
  runtime_data (fst r) = runtime_data w0 /\
  forwarded (fst r) = forwarded w0.
Proof. apply setup_primary_poll_fails. Qed.

(** *** Setting an entry up again *)

Lemma setup_builds w0 p l :
  reaches_scope_check env w0 p l ->
  let w := fst (async_setup_entry DOMAIN SPOTIFY_SCOPES env w0) in
  entry_id_of w = entry_id_of w0 /\
  runtime_data w =
    Some (mk_spotify_data (length (heap w0)) (Session (entry_id_of w0))
            (S (length (heap w0)))) /\
  exists c d,
    heap w = heap w0 ++ [c; d] /\
    data c = Some (PlaybackData p) /\ data d = Some (DeviceList l).
Proof.
  intros H. rewrite (setup_reaches_scope_check _ _ _ H). cbn zeta.
  assert (Hw : let w := world_at_scope_check DOMAIN env w0 p l in
               entry_id_of w = entry_id_of w0 /\
               runtime_data w =
                 Some (mk_spotify_data (length (heap w0))
                         (Session (entry_id_of w0)) (S (length (heap w0)))) /\
               exists c d,
                 heap w = heap w0 ++ [c; d] /\
                 data c = Some (PlaybackData p) /\
                 data d = Some (DeviceList l)).
  { unfold world_at_scope_check. cbn [entry_id_of runtime_data heap].
    repeat split. eexists _, _. repeat split. }
  destruct (issuperset _ SPOTIFY_SCOPES); exact Hw.
Qed.

(** Setting an entry up a second time creates two more coordinators and
    rebinds the services and the runtime data to them; the coordinators of
    the first run stay on the heap with their snapshots, and no service
    refreshes them any more. *)
Theorem second_setup_rebinds (w0 : World) (p p' : Playback)
    (l l' : list Device) :
  reaches_scope_check env w0 p l ->
  let w1 := fst (async_setup_entry DOMAIN SPOTIFY_SCOPES env w0) in
  reaches_scope_check env w1 p' l' ->
  let w2 := fst (async_setup_entry DOMAIN SPOTIFY_SCOPES env w1) in
  length (heap w2) = 4 + length (heap w0) /\
  services w2 !! (DOMAIN, SERVICE_UPDATE_DEVICES) =
    Some (HandleUpdateDevices (3 + length (heap w0))) /\
  runtime_data w2 =
    Some (mk_spotify_data (2 + length (heap w0)) (Session (entry_id_of w0))
            (3 + length (heap w0))) /\
  read_devices w2 = Some (DeviceList l') /\
  read_data (S (length (heap w0))) w2 = Some (DeviceList l).
Proof.
  intros H w1 H' w2.
  destruct (setup_builds _ _ _ H) as (Hid & _ & c & d & Hh & _ & Hd).
  destruct (setup_builds _ _ _ H') as (_ & Hrd' & c' & d' & Hh' & _ & Hd').
  destruct (setup_registers_services _ _ _ H') as (Hu' & _ & _).
  fold w1 in Hid, Hh, Hrd', Hh', Hu'. fold w2 in Hrd', Hh', Hu'.
  assert (Hl1 : length (heap w1) = 2 + length (heap w0))
    by (rewrite Hh, length_app; cbn [length]; lia).
  rewrite Hl1, Hid in *. repeat split.
  - rewrite Hh', length_app. cbn [length]. lia.
  - exact Hu'.
  - exact Hrd'.
  - unfold read_devices, read_data. rewrite Hrd'. cbn. rewrite Hh'.
    rewrite lookup_app_r by lia.
    replace (S (S (S (length (heap w0)))) - length (heap w1)) with 1 by lia.
    cbn. exact Hd'.
  - unfold read_data. rewrite Hh', Hh.
    rewrite lookup_app_l by (rewrite length_app; cbn [length]; lia).
    rewrite lookup_app_r by lia.
    replace (S (length (heap w0)) - length (heap w0)) with 1 by lia.
    cbn. exact Hd.
Qed.

(** *** Unload *)

Lemma filter_not_in_platforms (ps : list Platform) :
  filter (fun p => p ∉ PLATFORMS) ps = [].
Proof.
  induction ps as [|p ps IH]; [reflexivity|].
  rewrite filter_cons_False; [exact IH|].
  intros Hn. apply Hn. unfold PLATFORMS. destruct p; set_solver.
Qed.

(** Unloading an entry hands the platform's answer back and only undoes
    the forwarding: the services that setup registered stay registered,
    the coordinators and the runtime data stay, and the update_devices
    service can still be called and still returns. *)
Theorem unload_keeps_services (w0 : World) (p : Playback) (l : list Device)
    (ok : bool) (call : ServiceCall) :
  reaches_scope_check env w0 p l ->
  let w1 := fst (async_setup_entry DOMAIN SPOTIFY_SCOPES env w0) in
  let r := async_unload_entry ok w1 in
  snd r = Returned ok /\
  forwarded (fst r) = (if ok then [] else forwarded w1) /\
  services (fst r) = services w1 /\
  runtime_data (fst r) = runtime_data w1 /\
  heap (fst r) = heap w1 /\
  services (fst r) !! (DOMAIN, SERVICE_SEARCH) = Some HandleSearch /\
  snd (async_call env DOMAIN SERVICE_UPDATE_DEVICES call (fst r)) =
    Returned tt.
Proof.
  intros H w1 r.
  destruct (setup_registers_services _ _ _ H) as (Hu & Hs & Hl).
  fold w1 in Hu, Hs, Hl.
  assert (Hr : services (fst r) = services w1 /\ heap (fst r) = heap w1 /\
               runtime_data (fst r) = runtime_data w1)
    by (subst r; unfold async_unload_entry, async_unload_platforms;
        destruct ok; repeat split).
  destruct Hr as (Hrs & Hrh & Hrr).
  repeat split; try assumption.
  - subst r. unfold async_unload_entry, async_unload_platforms.
    destruct ok; cbn [fst forwarded set_forwarded]; [|reflexivity].
    apply filter_not_in_platforms.
  - rewrite Hrs. exact Hs.
  - unfold async_call. rewrite bind_get, Hrs, Hu. cbn [run_handler].
    apply async_refresh_returns. rewrite Hrh. lia.
Qed.

(** *** The service and the runtime data share the device coordinator *)

Lemma refresh_replaces_snapshot a w d l :
  heap w !! a = Some d ->
  update_method d = UpdateDevices ->
  refresh_token_function (spotify w) = Some RefreshToken ->
  refresh_fails (token_outcome env (token_calls w)) = None ->
  devices_outcome env (device_calls w) = Returned l ->
  let w' := fst (async_refresh env a w) in
  read_data a w' = Some (DeviceList l) /\
  (forall b, b <> a -> read_data b w' = read_data b w) /\
  runtime_data w' = runtime_data w.
Proof.
  intros Hd Hm Hf Ht Ho w'. subst w'.
  rewrite (async_refresh_spec _ _ _ Hd), Hm. cbn [run_update_method].
  erewrite bind_returned by (apply update_devices_passes; eassumption).
  cbn [ret fst]. unfold read_data. world.
  assert (Hlt : a < length (heap w)) by (eapply lookup_lt_Some; eauto).
  repeat split.
  - rewrite list_lookup_insert_eq by exact Hlt. reflexivity.
  - intros b Hb. rewrite list_lookup_insert_ne by (apply not_eq_sym, Hb).
    reflexivity.
Qed.

Lemma setup_leaves w0 p l :
  reaches_scope_check env w0 p l ->
  let w := fst (async_setup_entry DOMAIN SPOTIFY_SCOPES env w0) in
  refresh_token_function (spotify w) = Some RefreshToken /\
  exists d, heap w !! S (length (heap w0)) = Some d /\
            update_method d = UpdateDevices.
Proof.
  intros H. rewrite (setup_reaches_scope_check _ _ _ H). cbn zeta.
  assert (Hw : let w := world_at_scope_check DOMAIN env w0 p l in
               refresh_token_function (spotify w) = Some RefreshToken /\
               exists d, heap w !! S (length (heap w0)) = Some d /\
                         update_method d = UpdateDevices).
  { unfold world_at_scope_check. cbn [spotify heap refresh_token_function].
    split; [reflexivity|]. eexists. split.
    - rewrite lookup_app_r by lia.
      replace (S (length (heap w0)) - length (heap w0)) with 1 by lia.
      reflexivity.
    - reflexivity. }
  destruct (issuperset _ SPOTIFY_SCOPES); exact Hw.
Qed.

(** The update_devices service refreshes the very coordinator the
    runtime data of the entry refers to: after a setup that got as far as
    the scope validation, whether it passed it or not, a call of the
    service whose poll succeeds returns, readers of the entry see the new
    device list, and the primary coordinator keeps its snapshot. *)
Theorem service_refreshes_entry_devices (w0 : World) (p : Playback)
    (l l' : list Device) (call : ServiceCall) :
  reaches_scope_check env w0 p l ->
  let w1 := fst (async_setup_entry DOMAIN SPOTIFY_SCOPES env w0) in
  refresh_fails (token_outcome env (token_calls w1)) = None ->
  devices_outcome env (device_calls w1) = Returned l' ->
  let r := async_call env DOMAIN SERVICE_UPDATE_DEVICES call w1 in
  snd r = Returned tt /\
  read_devices (fst r) = Some (DeviceList l') /\
  read_data (length (heap w0)) (fst r) = Some (PlaybackData p).
Proof.
  intros H w1 Ht Ho r.
  destruct (setup_registers_services _ _ _ H) as (Hu & _ & Hl).
  destruct (setup_builds _ _ _ H) as (_ & Hrd & c & d0 & Hh & Hc & _).
  destruct (setup_leaves _ _ _ H) as (Hf & d & Hd & Hm).
  fold w1 in Hu, Hl, Hrd, Hh, Hf, Hd.
  destruct (refresh_replaces_snapshot _ _ _ _ Hd Hm Hf Ht Ho)
    as (Hnew & Hold & Hkeep).
  assert (Hr : r = async_refresh env (S (length (heap w0))) w1).
  { subst r. unfold async_call. rewrite bind_get, Hu. reflexivity. }
  rewrite Hr. split; [apply async_refresh_returns; lia|]. split.
  - unfold read_devices. rewrite Hkeep, Hrd. exact Hnew.
  - rewrite Hold by lia. unfold read_data. rewrite Hh.
    rewrite lookup_app_r by lia. rewrite Nat.sub_diag. exact Hc.
Qed.

End Properties.

(** ** Scope strings *)

Lemma split_nonempty sep s : split sep s <> [].
Proof.
  destruct s as [|c s]; cbn; [discriminate|].
  destruct (Ascii.eqb c sep); [discriminate|].
  destruct (split sep s); discriminate.
Qed.

Lemma join_cons_char sep c field fields :
  join sep (String c field :: fields) = String c (join sep (field :: fields)).
Proof. destruct fields; reflexivity. Qed.

Lemma join_cons_field sep field field' fields :
  join sep (field :: field' :: fields) =
  field +:+ sep +:+ join sep (field' :: fields).
Proof. reflexivity. Qed.

Lemma split_append sep s1 s2 :
  split sep (s1 +:+ String sep s2) = split sep s1 ++ split sep s2.
Proof.
  induction s1 as [|c s1 IH]; simpl.
  - rewrite Ascii.eqb_refl. reflexivity.
  - rewrite IH. destruct (Ascii.eqb c sep); [reflexivity|].
    destruct (split sep s1) as [|field fields] eqn:Hs; [|reflexivity].
    exfalso. exact (split_nonempty _ _ Hs).
Qed.

Lemma split_fields_free sep s field :
  field ∈ split sep s -> contains sep field = false.
Proof.
  revert field. induction s as [|c s IH]; intros field; cbn.
  - intros ->%list_elem_of_singleton. reflexivity.
  - destruct (Ascii.eqb c sep) eqn:Hc.
    + intros [->|H]%elem_of_cons; [reflexivity|apply IH, H].
    + destruct (split sep s) as [|f fs] eqn:Hs.
      { exfalso. exact (split_nonempty _ _ Hs). }
      intros [->|H]%elem_of_cons.
      * cbn. rewrite Ascii.eqb_sym, Hc. apply IH. left.
      * apply IH. right. exact H.
Qed.

(** Splitting a string at a separator loses nothing: joining the fields
    with the separator gives the string back, there is always at least
    one field, and no field contains the separator. *)
Theorem split_join (sep : ascii) (s : string) :
  join (String sep "") (split sep s) = s /\
  split sep s <> [] /\
  forall field, field ∈ split sep s -> contains sep field = false.
Proof.
  split; [|split; [apply split_nonempty|apply split_fields_free]].
  induction s as [|c s IH]; cbn; [reflexivity|].
  destruct (Ascii.eqb c sep) eqn:Hc.
  - apply Ascii.eqb_eq in Hc as ->.
    destruct (split sep s) as [|f fs] eqn:Hs.
    { exfalso. exact (split_nonempty _ _ Hs). }
    rewrite join_cons_field, IH. reflexivity.
  - destruct (split sep s) as [|f fs] eqn:Hs.
    { exfalso. exact (split_nonempty _ _ Hs). }
    rewrite join_cons_char, IH. reflexivity.
Qed.

Lemma elem_of_granted_scopes t s :
  s ∈ granted_scopes t <-> s ∈ split " " (scope t).
Proof. unfold granted_scopes. apply elem_of_list_to_set. Qed.

Lemma issuperset_fields (t : Token) (required : list string) :
  issuperset (granted_scopes t) required = true <->
  forall s, s ∈ required -> s ∈ split " " (scope t).
Proof.
  rewrite issuperset_spec. split.
  - intros H s Hs. apply elem_of_granted_scopes, H, elem_of_list_to_set, Hs.
  - intros H s Hs%elem_of_list_to_set. apply elem_of_granted_scopes, H, Hs.
Qed.


(** A scope string made of two scope strings with a space between them
    grants exactly what the two grant together. *)
Theorem scopes_accumulate (a : string) (s1 s2 : string) :
  granted_scopes (mk_token a (s1 +:+ String " " s2)) =
  granted_scopes (mk_token a s1) ∪ granted_scopes (mk_token a s2).
Proof.
  unfold granted_scopes. cbn [scope]. rewrite split_append.
  apply list_to_set_app_L.
Qed.

(** A token with an empty scope string grants only the empty scope: it
    fails the scope validation as soon as one required scope has a name. *)
Theorem empty_scope_fails (t : Token) (required : list string) (s : string) :
  scope t = "" ->
  s ∈ required -> s <> "" ->
  issuperset (granted_scopes t) required = false.
Proof.
  intros Ht Hs Hn.
  destruct (issuperset (granted_scopes t) required) eqn:H; [|reflexivity].
  pose proof (proj1 (issuperset_fields t required) H s Hs) as H'.
  rewrite Ht in H'. cbn in H'. apply list_elem_of_singleton in H'.
  contradiction.
Qed.

(** ** The theorems at sample runs *)

Lemma sample_reaches_scope_check (t : Token) :
  reaches_scope_check Sample.env_ok (Sample.fresh t) Sample.song
    [Sample.kitchen; Sample.office].
Proof. repeat split. Qed.

Lemma strict_subset_fails_auth_witness :
  granted_scopes Sample.narrow_token ⊂ list_to_set Sample.required /\
  snd (async_setup_entry Sample.domain Sample.required Sample.env_ok
         (Sample.fresh Sample.narrow_token))
  = Raised (Raise ConfigEntryAuthFailed).
Proof.
  split; [apply (bool_decide_unpack _); vm_compute; exact I|].
  refine (proj1 (strict_subset_fails_auth Sample.domain Sample.required
                   Sample.env_ok (Sample.fresh Sample.narrow_token)
                   Sample.song [Sample.kitchen; Sample.office] _ _)).
  - apply sample_reaches_scope_check.
  - apply (bool_decide_unpack _). vm_compute. exact I.
Defined.

Lemma first_device_poll_failure_not_ready_witness :
  snd (async_setup_entry Sample.domain Sample.required
         Sample.env_first_poll_down (Sample.fresh Sample.full_token))
  = Raised (RaiseFrom ConfigEntryNotReady
              (RaiseFrom UpdateFailed (Raise SpotifyConnectionError))).
Proof.
  refine (proj1 (proj2 (first_device_poll_failure_not_ready Sample.domain
                   Sample.required Sample.env_first_poll_down
                   (Sample.fresh Sample.full_token) Sample.song
                   (Raise SpotifyConnectionError) _ _ _))).
  - reflexivity.
  - reflexivity.
  - right. split; reflexivity.
Defined.

Lemma failed_poll_keeps_snapshot_witness :
  read_devices
    (fst (async_refresh Sample.env_later_poll_down 1
            (Sample.ready Sample.env_later_poll_down)))
  = Some (DeviceList [Sample.kitchen; Sample.office]).
Proof.
  refine (proj1 (failed_poll_keeps_snapshot Sample.env_later_poll_down
                   (Sample.ready Sample.env_later_poll_down)
                   (mk_spotify_data 0 (Session "entry1") 1)
                   (mk_coordinator "Home Devices" (Some "entry1")
                      (Some (timedelta_minutes 5)) UpdateDevices
                      (Some (DeviceList [Sample.kitchen; Sample.office]))
                      true None)
                   (DeviceList [Sample.kitchen; Sample.office])
                   (RaiseFrom UpdateFailed (Raise SpotifyConnectionError))
                   _ _ _ _ _));
    vm_compute; reflexivity.
Defined.

Lemma update_devices_handler_is_silent_witness :
  snd (_handle_update_devices_service Sample.env_later_poll_down 1
         Sample.a_call (Sample.ready Sample.env_later_poll_down))
  = Returned tt.
Proof.
  refine (proj1 (update_devices_handler_is_silent
                   Sample.env_later_poll_down 1 Sample.a_call
                   (Sample.ready Sample.env_later_poll_down)
                   (mk_coordinator "Home Devices" (Some "entry1")
                      (Some (timedelta_minutes 5)) UpdateDevices
                      (Some (DeviceList [Sample.kitchen; Sample.office]))
                      true None) _)).
  vm_compute. reflexivity.
Defined.

Lemma update_devices_translation_witness :
  snd (_update_devices Sample.env_later_poll_down
         (Sample.ready Sample.env_later_poll_down))
  = Raised (RaiseFrom UpdateFailed (Raise SpotifyConnectionError)).
Proof.
  refine (proj1 (update_devices_translation Sample.env_later_poll_down
                   (Sample.ready Sample.env_later_poll_down))
            (Raise SpotifyConnectionError) _ _);
    vm_compute; reflexivity.
Defined.

Lemma setup_succeeds_witness :
  snd (async_setup_entry Sample.domain Sample.required Sample.env_ok
         (Sample.fresh Sample.full_token))
  = Returned true.
Proof.
  refine (proj1 (setup_succeeds Sample.domain Sample.required Sample.env_ok
                   (Sample.fresh Sample.full_token) Sample.song
                   [Sample.kitchen; Sample.office] _ _)).
  - apply sample_reaches_scope_check.
  - apply (bool_decide_unpack _). vm_compute. exact I.
Defined.

Lemma coordinator_intervals_witness :
  exists c d,
    heap (fst (async_setup_entry Sample.domain Sample.required
                 Sample.env_ok (Sample.fresh Sample.full_token))) =
      heap (Sample.fresh Sample.full_token) ++ [c; d] /\
    update_method d = UpdateDevices /\
    update_interval d = Some (timedelta_minutes 5) /\
    timedelta_minutes 5 = mk_timedelta 0 300 0 /\
    total_seconds (timedelta_minutes 5) = 300%Z /\
    update_method c = SpotifyCoordinatorUpdate /\
    update_interval c = None.
Proof.
  exact (coordinator_intervals Sample.domain Sample.required Sample.env_ok
           (Sample.fresh Sample.full_token) Sample.song
           [Sample.kitchen; Sample.office]
           (sample_reaches_scope_check Sample.full_token)).
Defined.

Lemma scope_failure_keeps_side_effects_witness :
  let r := async_setup_entry Sample.domain Sample.required Sample.env_ok
             (Sample.fresh Sample.narrow_token) in
  snd r = Raised (Raise ConfigEntryAuthFailed) /\
  services (fst r) !! (Sample.domain, SERVICE_UPDATE_DEVICES) =
    Some (HandleUpdateDevices
            (S (length (heap (Sample.fresh Sample.narrow_token))))) /\
  services (fst r) !! (Sample.domain, SERVICE_SEARCH) = Some HandleSearch /\
  runtime_data (fst r) =
    Some (mk_spotify_data
            (length (heap (Sample.fresh Sample.narrow_token)))
            (Session (entry_id_of (Sample.fresh Sample.narrow_token)))
            (S (length (heap (Sample.fresh Sample.narrow_token))))) /\
  forwarded (fst r) = forwarded (Sample.fresh Sample.narrow_token).
Proof.
  refine (scope_failure_keeps_side_effects Sample.domain Sample.required
            Sample.env_ok (Sample.fresh Sample.narrow_token) Sample.song
            [Sample.kitchen; Sample.office] _ _).
  - apply sample_reaches_scope_check.
  - vm_compute. reflexivity.
Defined.

(** ** Where the specification and the code part *)

(** C1 (as stated) fails: with one required scope missing and everything
    else in order, setup raises ConfigEntryAuthFailed, but the heap holds
    the two coordinators it created on the way; and when the first device
    poll fails, the same credentials end in ConfigEntryNotReady. *)
Lemma strict_subset_still_creates_coordinators :
  let w0 := Sample.fresh Sample.narrow_token in
  let r := async_setup_entry Sample.domain Sample.required Sample.env_ok w0 in
  let r' := async_setup_entry Sample.domain Sample.required
              Sample.env_first_poll_down w0 in
  granted_scopes (entry_token w0) ⊂ list_to_set Sample.required /\
  ~ (raised_class (snd r) = Some ConfigEntryAuthFailed /\
     heap (fst r) = heap w0) /\
  length (heap (fst r)) = 2 /\
  raised_class (snd r') = Some ConfigEntryNotReady.
Proof.
  cbn zeta. split; [apply (bool_decide_unpack _); vm_compute; exact I|].
  split; [|split; vm_compute; reflexivity].
  intros [_ H]. vm_compute in H. discriminate H.
Qed.

(** C2 (as stated) fails: when the token endpoint rejects the refresh, the
    refresh callback raises the session's ClientResponseError as it is and
    the token check of setup raises ConfigEntryNotReady; neither is a
    ConfigEntryAuthFailed. *)
Lemma revoked_grant_is_not_auth_error :
  let w := Sample.fresh Sample.full_token in
  refresh_fails (token_outcome Sample.env_revoked (token_calls w)) =
    Some (Raise ClientResponseError) /\
  raised_class (snd (_refresh_token Sample.env_revoked w)) <>
    Some ConfigEntryAuthFailed /\
  raised_class (snd (setup_token_check Sample.env_revoked w)) <>
    Some ConfigEntryAuthFailed /\
  snd (_refresh_token Sample.env_revoked w) =
    Raised (Raise ClientResponseError) /\
  snd (setup_token_check Sample.env_revoked w) =
    Raised (RaiseFrom ConfigEntryNotReady (Raise ClientResponseError)).
Proof.
  cbn zeta. repeat split; try (vm_compute; discriminate).
Qed.

(** C6 (as stated) fails: after a setup that passed, a device poll whose
    token refresh cannot reach the token endpoint meets an aiohttp
    ClientError below the adapter; the adapter does not turn it into
    UpdateFailed, and the coordinator records the raw exception as the
    failure of its poll. *)
Lemma refresh_error_reaches_coordinator :
  let env := Sample.env_refresh_down_later in
  let w := Sample.ready env in
  snd (get_devices env w) = Raised (Raise ClientError) /\
  raw_transport_exception (Raise ClientError) = true /\
  raised_class (snd (_update_devices env w)) <> Some UpdateFailed /\
  snd (_update_devices env w) = Raised (Raise ClientError) /\
  read_last_exception 1 (fst (async_refresh env 1 w)) =
    Some (Raise ClientError).
Proof.
  cbn zeta. repeat split; try (vm_compute; discriminate).
Qed.

(** ** Further theorems at sample runs *)

Lemma token_check_failure_stops_setup_witness :
  snd (async_setup_entry Sample.domain Sample.required Sample.env_revoked
         (Sample.fresh Sample.full_token))
  = Raised (RaiseFrom ConfigEntryNotReady (Raise ClientResponseError)).
Proof.
  exact (f_equal snd
           (token_check_failure_stops_setup Sample.domain Sample.required
              Sample.env_revoked (Sample.fresh Sample.full_token)
              (Raise ClientResponseError) eq_refl)).
Defined.

Lemma primary_poll_failure_stops_setup_witness :
  snd (async_setup_entry Sample.domain Sample.required
         Sample.env_playback_down (Sample.fresh Sample.full_token))
  = Raised (RaiseFrom ConfigEntryNotReady (Raise SpotifyConnectionError)).
Proof.
  exact (proj1 (primary_poll_failure_stops_setup Sample.domain
                  Sample.required Sample.env_playback_down
                  (Sample.fresh Sample.full_token)
                  (Raise SpotifyConnectionError) eq_refl eq_refl)).
Defined.

Lemma second_setup_rebinds_witness :
  length
    (heap
       (fst (async_setup_entry Sample.domain Sample.required Sample.env_ok
               (fst (async_setup_entry Sample.domain Sample.required
                       Sample.env_ok (Sample.fresh Sample.full_token))))))
  = 4 + length (heap (Sample.fresh Sample.full_token)).
Proof.
  refine (proj1 (second_setup_rebinds Sample.domain Sample.required
                   Sample.env_ok (Sample.fresh Sample.full_token)
                   Sample.song Sample.song
                   [Sample.kitchen; Sample.office]
                   [Sample.kitchen; Sample.office] _ _)).
  - apply sample_reaches_scope_check.
  - repeat split.
Defined.

Lemma unload_keeps_services_witness :
  snd (async_unload_entry true
         (fst (async_setup_entry Sample.domain Sample.required Sample.env_ok
                 (Sample.fresh Sample.full_token))))
  = Returned true.
Proof.
  refine (proj1 (unload_keeps_services Sample.domain Sample.required
                   Sample.env_ok (Sample.fresh Sample.full_token)
                   Sample.song [Sample.kitchen; Sample.office] true
                   Sample.a_call _)).
  apply sample_reaches_scope_check.
Defined.


Lemma empty_scope_fails_witness :
  issuperset (granted_scopes (mk_token "t" "")) Sample.required = false.
Proof.
  refine (empty_scope_fails (mk_token "t" "") Sample.required "streaming"
            eq_refl _ _).
  - unfold Sample.required. rewrite !elem_of_cons. tauto.
  - discriminate.
Defined.

Lemma service_refreshes_entry_devices_witness :
  read_devices
    (fst (async_call Sample.env_new_device Sample.domain
            SERVICE_UPDATE_DEVICES Sample.a_call
            (fst (async_setup_entry Sample.domain Sample.required
                    Sample.env_new_device
                    (Sample.fresh Sample.narrow_token)))))
  = Some (DeviceList [Sample.office]).
Proof.
  refine (proj1 (proj2 (service_refreshes_entry_devices Sample.domain
                   Sample.required Sample.env_new_device
                   (Sample.fresh Sample.narrow_token) Sample.song
                   [Sample.kitchen; Sample.office] [Sample.office]
                   Sample.a_call _ _ _))).
  - repeat split.
  - vm_compute. reflexivity.
  - vm_compute. reflexivity.
Defined.
